(** * PyMedImage: voxel clustering ([pymedimage/cluster.py])

    A shallow embedding of the feature-matrix assembly, the clustering
    front ends and the per-subject work unit of [cluster.py], with the
    properties of its design document stated and proved against it.

    Conventions of the embedding.
    - A Python call either returns a value or raises: [result].  Code that
      also writes to shared objects or to disk runs in [M], which threads
      the program state through both outcomes.
    - A numpy array is its [shape] and its entries in C (row-major) order.
      Voxel values are only moved, compared with the mask constant and
      passed to libraries, so arrays are generic in the entry type.
    - Objects of [rttypes], [misc], [quantization], scikit-learn and SciPy
      are not part of [cluster.py]; they appear as interfaces (type
      classes) whose operations the embedded functions call.  So do the
      parts of numpy and of Python's [str] whose results depend on the
      library version or on the Unicode tables: the arithmetic of
      [np.product], the packing of a list that mixes scalars and arrays,
      and [str.lower] outside ASCII.
    - A Python string is the sequence of its UTF-8 bytes. *)

From Stdlib Require Import ZArith QArith String Ascii DecimalString.
From Stdlib Require Import PrimFloat SpecFloat FloatOps.
From stdpp Require Import base option list gmap strings.

Local Open Scope string_scope.
Local Open Scope nat_scope.
Local Open Scope list_scope.
Local Open Scope stdpp_scope.

(** ** Exceptions and results *)

(** The exception classes [cluster.py] raises or lets through.  All are
    subclasses of Python's [Exception]. *)
Inductive exn : Type :=
  | TypeError
  | ValueError
  | IndexError
  | AttributeError
  | NameError
  | UnboundLocalError
  | OtherError (name : string).

Inductive result (X : Type) : Type :=
  | Ok (x : X)
  | Raise (e : exn).
Arguments Ok {X} x.
Arguments Raise {X} e.

#[global] Instance result_ret : MRet result := @Ok.
#[global] Instance result_bind : MBind result := λ X Y f r,
  match r with
  | Ok x => f x
  | Raise e => Raise e
  end.
#[global] Instance result_fmap : FMap result := λ X Y f r,
  match r with
  | Ok x => Ok (f x)
  | Raise e => Raise e
  end.

(** [for x in xs: body] over a loop-carried state; an exception leaves the
    loop at once. *)
Fixpoint for_each {X S : Type} (xs : list X) (body : X → S → result S) (s : S)
  : result S :=
  match xs with
  | [] => Ok s
  | x :: xs' => s' ← body x s; for_each xs' body s'
  end.

(** [for i in range(n): body] *)
Definition for_range {S : Type} (n : nat) (body : nat → S → result S) (s : S)
  : result S :=
  for_each (seq 0 n) body s.

(** ** Python numbers *)

(** A Python number: an [int], or a [float] (an IEEE 754 binary64
    value). *)
Inductive number : Type :=
  | PyInt (n : Z)
  | PyFloat (f : float).

(** ** numpy arrays *)

Record ndarray (A : Type) : Type := NdArray {
  shape : list nat;
  data : list A
}.
Arguments NdArray {A} shape data.
Arguments shape {A} _.
Arguments data {A} _.

(** What [a[i]] gives, and what a Python list handed to [np.array] may
    hold: an entry, or a sub-array. *)
Inductive item (A : Type) : Type :=
  | Entry (x : A)
  | SubArray (a : ndarray A).
Arguments Entry {A} x.
Arguments SubArray {A} a.

(** numpy, where its result depends on the version of the library or on
    its scalar arithmetic. *)
Class Numpy : Type := {
  (** [np.array(l)] on a list that mixes scalars and arrays, or arrays
      of different shapes ("ragged nested sequences").  numpy 1.24 and
      later raise [ValueError]; versions 1.19 to 1.23 warn and return a
      one-dimensional array of objects that holds the arrays as they
      are; what older versions return depends on the items. *)
  np_array_ragged : ∀ {A : Type}, list (item A) → result (ndarray (item A));
  (** In every version the array returned, if any, has one entry per
      item of the list and holds the scalars of the list in place. *)
  np_array_ragged_scalars : ∀ {A : Type} (l : list (item A)) (a : ndarray (item A)),
    np_array_ragged l = Ok a →
    length (data a) = length l ∧
    ∀ j x, l !! j = Some (Entry x) → data a !! j = Some (Entry x);
  (** the scalars [np.product] returns: int64 on integers, with
      wrap-around, float64 on floats, with rounding *)
  np_scalar : Type;
  (** [np.product(t)] on a tuple of three numbers *)
  np_product : number * number * number → np_scalar;
  (** [a < b] on such scalars *)
  np_less : np_scalar → np_scalar → bool
}.

(** [np.array(list_of_scalars)]: a one-dimensional array. *)
Definition np_array {A} (l : list A) : ndarray A := NdArray [length l] l.

(** [a.shape[0]]; a zero-dimensional array has the empty tuple as its
    shape. *)
Definition shape0 {A} (a : ndarray A) : result nat :=
  match shape a with
  | [] => Raise IndexError
  | n :: _ => Ok n
  end.

(** An array of entries seen as an array of items. *)
Definition as_items {A} (a : ndarray A) : ndarray (item A) :=
  NdArray (shape a) (Entry <$> data a).

Definition is_entry {A} (it : item A) : bool :=
  match it with
  | Entry _ => true
  | SubArray _ => false
  end.

(** The entries of a list of sub-arrays that all have the shape [s], in
    order; [None] when an item is an entry or has another shape. *)
Fixpoint stack {A} (s : list nat) (l : list (item A)) : option (list A) :=
  match l with
  | [] => Some []
  | SubArray a :: l' =>
      if bool_decide (shape a = s) then (data a ++.) <$> stack s l' else None
  | Entry _ :: _ => None
  end.

(** [np.array(l)] on a list built from entries and from sub-arrays that
    indexing one array has produced.  Scalars alone give a
    one-dimensional array, sub-arrays of one shape are stacked along a
    new first axis, and a mixed list is ragged. *)
Definition np_array_items `{!Numpy} {A} (l : list (item A)) : result (ndarray (item A)) :=
  if forallb is_entry l then Ok (NdArray [length l] l)
  else
    match l with
    | SubArray a0 :: _ =>
        match stack (shape a0) l with
        | Some entries => Ok (NdArray (length l :: shape a0) (Entry <$> entries))
        | None => np_array_ragged l
        end
    | _ => np_array_ragged l
    end.

(** [a.reshape((-1, 1))]: the same entries as a column of one-entry rows. *)
Definition reshape_col {A} (a : ndarray A) : ndarray A :=
  NdArray [length (data a); 1] (data a).

(** [a[d, r, c]] for non-negative indices on a three-dimensional array;
    numpy raises [IndexError] when an index is out of bounds or the array
    has fewer than three axes.  On more than three axes the result is a
    sub-array, whose comparison with a scalar cannot drive an [if]:
    [ValueError]. *)
Definition getitem3 {A} (a : ndarray A) (d r c : nat) : result A :=
  match shape a with
  | [s0; s1; s2] =>
      if (d <? s0) && (r <? s1) && (c <? s2) then
        match data a !! ((d * s1 + r) * s2 + c) with
        | Some x => Ok x
        | None => Raise IndexError
        end
      else Raise IndexError
  | _ :: _ :: _ :: _ :: _ => Raise ValueError
  | _ => Raise IndexError
  end.

(** [a[i]] for a non-negative index: an entry of a one-dimensional
    array, the [i]-th sub-array along the first axis of an array with
    more axes (on a column of shape (N, 1) a one-entry array of shape
    (1,)).  numpy raises [IndexError] when the index is out of bounds or
    the array has no axis. *)
Definition getitem {A} (a : ndarray A) (i : nat) : result (item A) :=
  match shape a with
  | [] => Raise IndexError
  | [n] =>
      if i <? n then
        match data a !! i with
        | Some x => Ok (Entry x)
        | None => Raise IndexError
        end
      else Raise IndexError
  | n :: rest =>
      if i <? n then
        let k := foldr Nat.mul 1 rest in
        Ok (SubArray (NdArray rest (take k (drop (i * k) (data a)))))
      else Raise IndexError
  end.

(** ** The [rttypes] objects [cluster.py] works on *)

Module FrameOfReference.
(** The two attributes [cluster.py] reads or writes: the grid size
    (x, y, z) and the voxel spacing. *)
Record t : Type := Build {
  size : nat * nat * nat;
  spacing : number * number * number
}.
#[global] Instance inhabited : Inhabited t :=
  populate (Build (0, 0, 0) (PyInt 0, PyInt 0, PyInt 0)).
End FrameOfReference.

(** Frames of reference are mutable objects shared between volumes and
    regions of interest: they live in a store and are held by address. *)
Abbreviation addr := nat (only parsing).
Abbreviation heap := (gmap nat FrameOfReference.t) (only parsing).

Record Volume (A : Type) : Type := MkVolume {
  array : ndarray A;
  frameofreference : addr;
  modality : string
}.
Arguments MkVolume {A} array frameofreference modality.
Arguments array {A} _.
Arguments frameofreference {A} _.
Arguments modality {A} _.

(** A region of interest: its own frame of reference, and the dense binary
    mask it produces for a given frame ([ROI.makeDenseMask], of which only
    the mask array is read). *)
Record ROI : Type := MkROI {
  roi_frameofreference : addr;
  makeDenseMask : FrameOfReference.t → ndarray Z
}.

(** Modelled from the spec: [MaskableVolume.fromArray] belongs to
    [rttypes], which is not among the sources.  It reshapes the vector to
    the size of the target frame, in (z, y, x) order; numpy's reshape
    raises [ValueError] when the number of entries does not fit. *)
Definition fromArray {A} (h : heap) (a : ndarray A) (frameofreference : addr)
  : result (Volume A) :=
  let '(size_x, size_y, size_z) := FrameOfReference.size (h !!! frameofreference) in
  if length (data a) =? size_z * size_y * size_x then
    Ok (MkVolume (NdArray [size_z; size_y; size_x] (data a)) frameofreference "")
  else Raise ValueError.

(** The operations of [rttypes] and [misc] that are used but not defined
    in [cluster.py]. *)
Class RtTypes (A : Type) : Type := {
  (** [volume.vectorize(roi)]; with no region the flattened array *)
  vectorize : Volume A → option ROI → ndarray A;
  (** [volume.conformTo(frameofreference)]: the volume resampled on the
      grid of the frame; only its array is new *)
  conformTo : Volume A → FrameOfReference.t → ndarray A;
  (** [misc.generate_heatmap_label] *)
  generate_heatmap_label : Volume A → string;
  (** the scalar map of [np.nan_to_num] *)
  nan_to_num : A → A
}.

(** ** Mask projector *)

Section projector.
Context {A : Type} `{!Numpy, !RtTypes A}.

(** [create_pruned_vector(volume, roi)] *)
Definition create_pruned_vector (h : heap) (volume : Volume A) (roi : option ROI)
  : result (ndarray A) :=
  match roi with
  | None =>
      (* no roi defined *)
      let pruned_vector := vectorize volume None in
      (* the count that is logged: pruned_vector.shape[0] *)
      _ ← shape0 pruned_vector;
      Ok (reshape_col pruned_vector)
  | Some roi =>
      let '(size_x, size_y, size_z) :=
        FrameOfReference.size (h !!! frameofreference volume) in
      let densemaskvolume := makeDenseMask roi (h !!! frameofreference volume) in
      pruned_vector ←
        for_range size_z (λ d pruned_vector,
          for_range size_y (λ r pruned_vector,
            for_range size_x (λ c pruned_vector,
              m ← getitem3 densemaskvolume d r c;
              if (m =? 1)%Z then
                x ← getitem3 (array volume) d r c;
                Ok (pruned_vector ++ [x])
              else Ok pruned_vector) pruned_vector) pruned_vector) [];
      Ok (reshape_col (np_array pruned_vector))
  end.

(** [expand_pruned_vector(pruned_vector, roi, frameofreference, fill_value)].
    The list [expanded_vector] holds what indexing the vector gives, an
    entry or a sub-array, next to the fill values; the volume returned
    holds what [np.array] makes of that list. *)
Definition expand_pruned_vector (h : heap) (pruned_vector : ndarray A)
    (roi : option ROI) (frameofreference : addr) (fill_value : A)
  : result (Volume (item A)) :=
  (* the count that is logged first: pruned_vector.shape[0] *)
  _ ← shape0 pruned_vector;
  match roi with
  | None => fromArray h (as_items pruned_vector) frameofreference
  | Some roi =>
      let '(size_x, size_y, size_z) :=
        FrameOfReference.size (h !!! frameofreference) in
      let densemaskvolume := makeDenseMask roi (h !!! frameofreference) in
      st ←
        for_range size_z (λ d st,
          for_range size_y (λ r st,
            for_range size_x (λ c '(expanded_vector, pruned_idx),
              m ← getitem3 densemaskvolume d r c;
              if (m =? 1)%Z then
                x ← getitem pruned_vector pruned_idx;
                Ok (expanded_vector ++ [x], S pruned_idx)
              else Ok (expanded_vector ++ [Entry fill_value], pruned_idx)) st) st)
          ([], 0);
      (* convert to np.array/vector *)
      expanded_vector ← np_array_items st.1;
      fromArray h expanded_vector frameofreference
  end.
End projector.

(** ** State: the store of frames of reference *)

(** A computation over a state [S] that returns or raises; the state
    reached is kept in both cases. *)
Definition St (S X : Type) : Type := S → result X * S.

#[global] Instance St_ret {S} : MRet (St S) := λ X x s, (Ok x, s).
#[global] Instance St_bind {S} : MBind (St S) := λ X Y f m s,
  match m s with
  | (Ok x, s') => f x s'
  | (Raise e, s') => (Raise e, s')
  end.

Definition get_state {S} : St S S := λ s, (Ok s, s).
Definition modify_state {S} (f : S → S) : St S unit := λ s, (Ok tt, f s).
Definition lift_result {S X} (r : result X) : St S X := λ s, (r, s).

(** ** Feature matrix assembler *)

(** [vol.frameofreference] where [vol] may be [None] *)
Definition getattr_frameofreference {A} (vol : option (Volume A)) : result addr :=
  match vol with
  | Some v => Ok (frameofreference v)
  | None => Raise AttributeError
  end.

(** The rows of a two-dimensional array of [n] rows and [k] columns. *)
Fixpoint chunks {A} (k n : nat) (l : list A) : list (list A) :=
  match n with
  | 0 => []
  | S n' => take k l :: chunks k n' (drop k l)
  end.

Definition rows {A} (a : ndarray A) : list (list A) :=
  match shape a with
  | [n; k] => chunks k n (data a)
  | _ => []
  end.

Definition same_row_count {A} (n : nat) (a : ndarray A) : bool :=
  match shape a with
  | [n'; _] => n' =? n
  | _ => false
  end.

(** [np.concatenate(arrays, axis=1)] on two-dimensional arrays: the rows
    are joined side by side.  numpy raises [ValueError] on an empty list
    and when the row counts differ. *)
Definition concatenate_axis1 {A} (arrays : list (ndarray A)) : result (ndarray A) :=
  match arrays with
  | [] => Raise ValueError
  | a0 :: _ =>
      match shape a0 with
      | [n; _] =>
          if forallb (same_row_count n) arrays then
            let joined :=
              foldr (λ a acc, zip_with app (rows a) acc) (replicate n []) arrays in
            Ok (NdArray [n; sum_list ((λ a, nth 1 (shape a) 0) <$> arrays)]
                        (concat joined))
          else Raise ValueError
      | _ => Raise ValueError
      end
  end.

(** scikit-learn, as far as [cluster.py] calls it.  Every call may
    raise. *)
Record KMeansParams : Type := MkKMeansParams {
  km_n_clusters : Z;
  km_max_iter : Z;
  km_n_init : Z;
  km_init : string;
  km_precompute_distances : bool;
  km_tol : Q;
  km_n_jobs : Z
}.

Record AgglomerativeParams : Type := MkAgglomerativeParams {
  agg_n_clusters : Z;
  agg_affinity : string;
  agg_compute_full_tree : bool;
  agg_linkage : string
}.

Class Sklearn (A : Type) : Type := {
  KMeans : Type;
  AgglomerativeClustering : Type;
  (** [StandardScaler().fit_transform(X)] *)
  StandardScaler_fit_transform : ndarray A → result (ndarray A);
  (** [pca.fit_transform(X)] for [pca = SparsePCA()] *)
  SparsePCA_fit_transform : ndarray A → result (ndarray A);
  (** [KMeans(...).fit(X)] *)
  KMeans_fit : KMeansParams → ndarray A → result KMeans;
  (** [km.score(X)] *)
  KMeans_score : KMeans → ndarray A → result Q;
  (** [km.predict(X)] *)
  KMeans_predict : KMeans → ndarray A → result (ndarray Z);
  (** [AgglomerativeClustering(...).fit_predict(X)], with the fitted
      estimator *)
  AgglomerativeClustering_fit_predict :
    AgglomerativeParams → ndarray A → result (ndarray Z * AgglomerativeClustering)
}.

(** [scipy.cluster.hierarchy] *)
Class Scipy (A : Type) : Type := {
  LinkageMatrix : Type;
  (** [sch.linkage(X, method, metric)] *)
  sch_linkage : ndarray A → string → string → result LinkageMatrix;
  (** [sch.fcluster(Z, t, criterion)] *)
  sch_fcluster : LinkageMatrix → Z → string → result (ndarray Z)
}.

(** An estimator keeps the arguments of its constructor as attributes:
    [SparsePCA()] is built with no argument, so [pca.n_components] is the
    default, [None]. *)
Definition SparsePCA_n_components : option Z := None.

(** ['{:d}'.format(x)]: only an integer has the presentation type [d];
    the text is logged and not used otherwise. *)
Definition format_integer (x : option Z) : result unit :=
  match x with
  | Some _ => Ok tt
  | None => Raise TypeError
  end.

(** The tuple [(1, 1, 1)] *)
Definition unit_spacing : number * number * number := (PyInt 1, PyInt 1, PyInt 1).

(** [frameofreference.spacing = value] on the object at the address *)
Definition set_spacing (frameofreference : addr) (value : number * number * number)
    (h : heap) : heap :=
  <[frameofreference :=
      FrameOfReference.Build (FrameOfReference.size (h !!! frameofreference)) value]> h.

(** What [create_feature_matrix] returns besides [None]:
    (pruned_feature_array, frameofreference, dense_feature_array,
    feature_column_labels). *)
Definition feature_matrix (A : Type) : Type :=
  (ndarray A * addr * ndarray A * list string)%type.

Section assembler.
Context {A : Type} `{!Numpy, !RtTypes A, !Sklearn A}.

(** Lines 119-134: the frame of reference taken as the common grid. *)
Definition common_frameofreference
    (feature_volumes : list (option (Volume A))) (roi : option ROI)
  : St heap addr :=
  match roi with
  | Some roi =>
      (* use roi.frameofreference as common shape *)
      mret (roi_frameofreference roi)
  | None =>
      (* find highest resolution volume and use as FrameOfReference *)
      h ← get_state;
      let highest_res_volume := feature_volumes !! 0 ≫= id in
      f0 ← lift_result (getattr_frameofreference highest_res_volume);
      let highest_res := np_product (FrameOfReference.spacing (h !!! f0)) in
      best ← lift_result (
        for_each (drop 1 feature_volumes) (λ volume '(highest_res_volume, highest_res),
          f ← getattr_frameofreference volume;
          let res := np_product (FrameOfReference.spacing (h !!! f)) in
          if np_less res highest_res then Ok (volume, res)
          else Ok (highest_res_volume, highest_res))
        (highest_res_volume, highest_res));
      (* assign highest res FOR as common shape *)
      frameofreference ← lift_result (getattr_frameofreference best.1);
      (* OVERRIDE for COMMON RESOLUTION *)
      modify_state (set_spacing frameofreference unit_spacing);;
      mret frameofreference
  end.

(** Lines 140-167: one pass of the loop over [feature_volumes]. *)
Definition conform_feature (h : heap) (frameofreference : addr) (ref_shape : list nat)
    (roi : option ROI) (vol : option (Volume A))
    (lists : list (ndarray A) * list (ndarray A) * list string)
  : result (list (ndarray A) * list (ndarray A) * list string) :=
  let '(conformed_feature_list, dense_feature_list, feature_column_labels) := lists in
  match vol with
  | None => Ok lists
  | Some vol =>
      let conformed_volume :=
        MkVolume (conformTo vol (h !!! frameofreference)) frameofreference (modality vol) in
      if bool_decide (shape (array conformed_volume) ≠ ref_shape) then Ok lists
      else
        pruned_feature_vector ← create_pruned_vector h conformed_volume roi;
        let dense := reshape_col (vectorize conformed_volume roi) in
        let label := generate_heatmap_label conformed_volume in
        Ok (conformed_feature_list ++ [pruned_feature_vector],
            dense_feature_list ++ [dense],
            feature_column_labels ++ [label])
  end.

Definition np_nan_to_num (a : ndarray A) : ndarray A :=
  NdArray (shape a) (nan_to_num <$> data a).

(** [create_feature_matrix(feature_volumes, roi, PCA)] *)
Definition create_feature_matrix
    (feature_volumes : list (option (Volume A))) (roi : option ROI) (PCA : bool)
  : St heap (option (feature_matrix A)) :=
  if length feature_volumes <=? 0 then mret None
  else
    frameofreference ← common_frameofreference feature_volumes roi;
    h ← get_state;
    (* take the selected FORs shape to be the reference *)
    let '(size_x, size_y, size_z) :=
      FrameOfReference.size (h !!! frameofreference) in
    let ref_shape := [size_z; size_y; size_x] in
    lift_result (
      '(conformed_feature_list, dense_feature_list, feature_column_labels) ←
        for_each feature_volumes (conform_feature h frameofreference ref_shape roi)
          ([], [], []);
      (* combine accepted features into array of shape (nSamples, nFeatures) *)
      pruned_feature_array ← np_nan_to_num <$> concatenate_axis1 conformed_feature_list;
      dense_feature_array ← np_nan_to_num <$> concatenate_axis1 dense_feature_list;
      (* dimensionality reduction *)
      pruned_feature_array ←
        (if PCA then
           transformed ← SparsePCA_fit_transform pruned_feature_array;
           (* the debug message: '... {:d} of {:d} ...'.format(pca.n_components, nfeats) *)
           format_integer SparsePCA_n_components;;
           Ok transformed
         else Ok pruned_feature_array);
      Ok (Some (pruned_feature_array, frameofreference, dense_feature_array,
                feature_column_labels))).
End assembler.

(** ** Clustering engine *)

(** *** Python strings as objects

    [cluster.py] compares strings both by value ([in], [not in]) and by
    identity ([is]).  A string is therefore modelled with the one fact
    about its identity that the code can observe: whether it is the
    object of a string constant of the program text (CPython keeps one
    object per constant) or an object made at run time. *)
Inductive pystr : Type :=
  | StrConst (s : string)
  | StrNew (s : string).

Definition str_value (x : pystr) : string :=
  match x with
  | StrConst s | StrNew s => s
  end.

Definition ascii_lower (c : ascii) : ascii :=
  let n := nat_of_ascii c in
  if (65 <=? n) && (n <=? 90) then ascii_of_nat (n + 32) else c.

(** Lower-casing of ASCII text: the letters A-Z. *)
Fixpoint ascii_lower_string (s : string) : string :=
  match s with
  | EmptyString => EmptyString
  | String c s' => String (ascii_lower c) (ascii_lower_string s')
  end.

(** Every byte is below 128: the text has ASCII characters only. *)
Fixpoint is_ascii (s : string) : bool :=
  match s with
  | EmptyString => true
  | String c s' => (nat_of_ascii c <? 128) && is_ascii s'
  end.

(** [str.lower] follows the Unicode character database: on ASCII text
    it lower-cases the letters A-Z; other characters have mappings of
    their own (the Kelvin sign U+212A becomes the letter k). *)
Class Unicode : Type := {
  lower : string → string;
  lower_ascii : ∀ s, is_ascii s = true → lower s = ascii_lower_string s
}.

(** [x.lower()].  CPython builds the result in a newly allocated object
    whatever the letters; only the empty string is the shared
    constant. *)
Definition str_lower `{!Unicode} (x : pystr) : pystr :=
  match lower (str_value x) with
  | EmptyString => StrConst EmptyString
  | s => StrNew s
  end.

(** [x is 'literal']: the same object as the constant. *)
Definition is_constant (x : pystr) (literal : string) : bool :=
  match x with
  | StrConst s => bool_decide (s = literal)
  | StrNew _ => false
  end.

(** [x in names], by value *)
Definition str_in (x : pystr) (names : list string) : bool :=
  bool_decide (str_value x ∈ names).

(** *** Values passed to and returned by the strategies *)

(** An argument given as [feature_matrix]: anything at all. *)
Inductive pyobj (A : Type) : Type :=
  | PyNone
  | PyArray (a : ndarray A)
  | PyOther (type_name : string).
Arguments PyNone {A}.
Arguments PyArray {A} a.
Arguments PyOther {A} type_name.

(** [isinstance(x, np.ndarray)] *)
Definition isinstance_ndarray {A} (x : pyobj A) : bool :=
  match x with
  | PyArray _ => true
  | _ => false
  end.

(** What a strategy returns: [None], an integer array, a fitted estimator
    or linkage matrix, or a tuple [(first, second)] of these. *)
Inductive pyval (O : Type) : Type :=
  | VNone
  | VArray (a : ndarray Z)
  | VObject (o : O)
  | VTuple (first second : pyval O).
Arguments VNone {O}.
Arguments VArray {O} a.
Arguments VObject {O} o.
Arguments VTuple {O} first second.

(** The module-level dictionary [GLOBAL]. *)
Definition GLOBAL : gmap string (list string) :=
  <["scipy_hcluster_valid_methods" :=
      ["ward"; "single"; "complete"; "average"; "weighted"; "centroid"; "median"]]>
  (<["scipy_hcluster_valid_metrics" :=
      ["euclidean"; "cityblock"; "minkowski"; "sqeuclidean"; "seuclidean"; "cosine"]]>
   ∅).

Section clustering.
Context {A : Type} `{!Unicode, !Sklearn A, !Scipy A}.

(** [cluster_kmeans(feature_matrix, nclusters, eps, njobs)] *)
Definition cluster_kmeans (feature_matrix : pyobj A) (nclusters : Z) (eps : Q)
    (njobs : Z) : result (pyval KMeans) :=
  (* check inputs *)
  match feature_matrix with
  | PyArray X =>
      if (nclusters <=? 1)%Z then Raise ValueError
      else
        (* Preprocessing - normalization *)
        normalized_feature_matrix ← StandardScaler_fit_transform X;
        (* create estimator obj *)
        km ← KMeans_fit
               {| km_n_clusters := nclusters;
                  km_max_iter := 300;
                  km_n_init := 10;
                  km_init := "k-means++";
                  km_precompute_distances := true;
                  km_tol := eps;
                  km_n_jobs := njobs |}
               normalized_feature_matrix;
        (* the score that is logged *)
        KMeans_score km normalized_feature_matrix;;
        VArray <$> KMeans_predict km normalized_feature_matrix
  | _ => Ok VNone
  end.

(** [cluster_hierarchical_sklearn(feature_matrix, nclusters, affinity,
    linkage)] *)
Definition cluster_hierarchical_sklearn (feature_matrix : pyobj A) (nclusters : Z)
    (affinity linkage : pystr) : result (pyval AgglomerativeClustering) :=
  (* check inputs *)
  match feature_matrix with
  | PyArray X =>
      (* sanitize string inputs *)
      let linkage := str_lower linkage in
      let affinity := str_lower affinity in
      (* Preprocessing - normalization *)
      normalized_feature_matrix ← StandardScaler_fit_transform X;
      (* determine valid parameters *)
      let valid_linkage := ["ward"; "complete"; "maximum"; "average"] in
      if negb (str_in linkage valid_linkage) then Raise ValueError
      else
        let linkage :=
          if is_constant linkage "maximum" then StrConst "complete" else linkage in
        let valid_affinity := ["l1"; "l2"; "manhattan"; "cosine"; "euclidean"] in
        if negb (str_in affinity valid_affinity) then Raise ValueError
        else
          let affinity :=
            if is_constant linkage "ward" then StrConst "euclidean" else affinity in
          (* create estimator obj, perform fit and estimation *)
          '(prediction, agg) ←
            AgglomerativeClustering_fit_predict
              {| agg_n_clusters := nclusters;
                 agg_affinity := str_value affinity;
                 agg_compute_full_tree := true;
                 agg_linkage := str_value linkage |}
              normalized_feature_matrix;
          Ok (VTuple (VArray prediction) (VObject agg))
  | _ => Raise TypeError
  end.

(** [cluster_hierarchical_scipy(feature_matrix, nclusters, metric,
    method)] *)
Definition cluster_hierarchical_scipy (feature_matrix : pyobj A) (nclusters : Z)
    (metric method : pystr) : result (pyval LinkageMatrix) :=
  (* check inputs *)
  match feature_matrix with
  | PyArray X =>
      (* sanitize string inputs *)
      let method := str_lower method in
      let metric := str_lower metric in
      (* Preprocessing - normalization *)
      normalized_feature_matrix ← StandardScaler_fit_transform X;
      (* determine valid parameters *)
      let valid_method := GLOBAL !!! "scipy_hcluster_valid_methods" in
      if negb (str_in method valid_method) then Raise ValueError
      else
        let method :=
          if is_constant method "maximum" then StrConst "complete" else method in
        let valid_metric := GLOBAL !!! "scipy_hcluster_valid_metrics" in
        if negb (str_in metric valid_metric) then Raise ValueError
        else
          let metric :=
            if is_constant method "ward" then StrConst "euclidean" else metric in
          (* perform fit and estimation *)
          linkage_matrix ←
            sch_linkage normalized_feature_matrix (str_value method) (str_value metric);
          prediction ← sch_fcluster linkage_matrix nclusters "maxclust";
          Ok (VTuple (VArray prediction) (VObject linkage_matrix))
  | _ => Raise TypeError
  end.
End clustering.

(** ** Subject work unit *)

(** What a pickle file holds. *)
Inductive blob (A : Type) : Type :=
  | PickledVolume (v : Volume A)
  | PickledClusters (v : Volume (item Z))
  | PickledFeatures (feature_matrix : ndarray A) (labels : list string).
Arguments PickledVolume {A} v.
Arguments PickledClusters {A} v.
Arguments PickledFeatures {A} feature_matrix labels.

(** The program state: the store of frames of reference and the file
    system (regular files with their content, and directories).  Writing
    is idealised: it fails only on a path that is a directory. *)
Record state (A : Type) : Type := MkState {
  st_heap : heap;
  st_files : gmap string (blob A);
  st_dirs : gset string
}.
Arguments MkState {A} st_heap st_files st_dirs.
Arguments st_heap {A} _.
Arguments st_files {A} _.
Arguments st_dirs {A} _.

Abbreviation M A := (St (state A)).

(** Run a computation on the store of frames inside the whole state. *)
Definition on_heap {A X} (m : St heap X) : M A X := λ s,
  let '(r, h') := m (st_heap s) in
  (r, MkState h' (st_files s) (st_dirs s)).

(** [os.path.join(a, b)] on POSIX paths *)
Definition os_path_join (a b : string) : string :=
  match b with
  | String "/" _ => b
  | _ =>
      match a with
      | EmptyString => b
      | _ =>
          if bool_decide (String.get (String.length a - 1) a = Some "/"%char)
          then a +:+ b else a +:+ "/" +:+ b
      end
  end.

(** [os.path.exists(path)] *)
Definition os_path_exists {A} (path : string) : M A bool := λ s,
  (Ok (bool_decide (is_Some (st_files s !! path) ∨ path ∈ st_dirs s)), s).

(** [os.makedirs(path, exist_ok=True)] *)
Definition os_makedirs {A} (path : string) : M A unit := λ s,
  match st_files s !! path with
  | Some _ => (Raise (OtherError "FileExistsError"), s)
  | None => (Ok tt, MkState (st_heap s) (st_files s) ({[path]} ∪ st_dirs s))
  end.

(** Writing a pickle: [volume.toPickle(path)], and [pickle.dump] into
    [open(path, mode='wb')]. *)
Definition write_pickle {A} (path : string) (content : blob A) : M A unit := λ s,
  if bool_decide (path ∈ st_dirs s) then (Raise (OtherError "IsADirectoryError"), s)
  else (Ok tt, MkState (st_heap s) (<[path := content]> (st_files s)) (st_dirs s)).

(** Modelled from the spec: [MaskableVolume.fromPickle] belongs to
    [rttypes], which is not among the sources.  It loads the volume that
    was serialised at the path. *)
Definition fromPickle {A} (path : string) : M A (Volume A) := λ s,
  match st_files s !! path with
  | Some (PickledVolume v) => (Ok v, s)
  | Some _ => (Raise (OtherError "UnpicklingError"), s)
  | None => (Raise (OtherError "FileNotFoundError"), s)
  end.

(** A subject, as far as [DOICluster] reads it. *)
Record DOI (A : Type) : Type := MkDOI {
  doi : string;
  p_CLUSTERS : string;
  getFeaturesPath : string;
  getClusterL1PicklePath : string;
  getClusterL1FeaturesPicklePath : string;
  getImageVolume : result (option (Volume A));
  getROI : result (option ROI)
}.
Arguments MkDOI {A}.
Arguments doi {A} _.
Arguments p_CLUSTERS {A} _.
Arguments getFeaturesPath {A} _.
Arguments getClusterL1PicklePath {A} _.
Arguments getClusterL1FeaturesPicklePath {A} _.
Arguments getImageVolume {A} _.
Arguments getROI {A} _.

(** The first argument of [DOICluster]: one subject or a list. *)
Inductive doi_arg (A : Type) : Type :=
  | OneDOI (d : DOI A)
  | DOIList (l : list (DOI A)).
Arguments OneDOI {A} d.
Arguments DOIList {A} l.

(** Local feature definitions ([LocalFeatureDefinition]) and
    [quantization.enforceGLCMQuantizationMode]. *)
Class FeatureDefs (FD : Type) : Type := {
  enforceGLCMQuantizationMode : FD → string → FD;
  (** [feature_def.findFiles(path)], given the files that exist *)
  findFiles : FD → string → gset string → list string;
  generateFilename : FD → string
}.

(** A loop body either goes on with its state or executes [return]. *)
Inductive flow (S R : Type) : Type :=
  | Next (s : S)
  | Return (r : R).
Arguments Next {S R} s.
Arguments Return {S R} r.

Fixpoint for_each_flow {T X S R : Type} (xs : list X)
    (body : X → S → St T (flow S R)) (s : S) : St T (flow S R) :=
  match xs with
  | [] => mret (Next s)
  | x :: xs' =>
      fl ← body x s;
      match fl with
      | Next s' => for_each_flow xs' body s'
      | Return r => mret (Return r)
      end
  end.

(** The names bound in the loop of [DOICluster] that are read after
    it. *)
Record doi_locals (A : Type) : Type := MkLocals {
  l_doi : DOI A;
  l_p_doi_clusters : string;
  l_p_clusters_l1_pickle : string;
  l_reclustered : bool;
  l_roi : ROI
}.
Arguments MkLocals {A}.
Arguments l_doi {A} _.
Arguments l_p_doi_clusters {A} _.
Arguments l_p_clusters_l1_pickle {A} _.
Arguments l_reclustered {A} _.
Arguments l_roi {A} _.

Section work_unit.
Context {A FD : Type} `{!Numpy, !RtTypes A, !Sklearn A, !FeatureDefs FD}.

(** Lines 361-397: the body of [for doi in doi_list], [subject] being
    the loop variable [doi]. *)
Definition load_doi (local_feature_defs : list FD) (recluster : bool)
    (subject : DOI A) (st : list (option (Volume A)) * option (doi_locals A))
  : M A (flow (list (option (Volume A)) * option (doi_locals A)) Z) :=
  let feature_volume_list := st.1 in
  (* generate doi specific paths *)
  let p_doi_features := getFeaturesPath subject in
  let p_doi_clusters := os_path_join (p_CLUSTERS subject) (doi subject) in
  let p_clusters_l1_pickle := getClusterL1PicklePath subject in
  (* check for existing cluster *)
  existing ← os_path_exists p_clusters_l1_pickle;
  if existing && negb recluster then mret (Return 10%Z)
  else
    let reclustered := existing in
    (* load dicom data *)
    image_vol ← lift_result (getImageVolume subject);
    roi ← lift_result (getROI subject);
    match image_vol, roi with
    | Some image_vol, Some roi =>
        let feature_volume_list := feature_volume_list ++ [Some image_vol] in
        (* load feature volumes *)
        fl ← for_each_flow local_feature_defs (λ feature_def feature_volume_list,
               let trimmed_feature_def :=
                 enforceGLCMQuantizationMode feature_def (modality image_vol) in
               s ← get_state;
               let matches := findFiles trimmed_feature_def p_doi_features
                                (dom (st_files s)) in
               match matches with
               | [] => mret (Return 1%Z)
               | first :: _ =>
                   v ← fromPickle first;
                   mret (Next (feature_volume_list ++ [Some v]))
               end) feature_volume_list;
        match fl with
        | Return r => mret (Return r)
        | Next feature_volume_list =>
            mret (Next (feature_volume_list,
                        Some (MkLocals subject p_doi_clusters p_clusters_l1_pickle
                                       reclustered roi)))
        end
    | _, _ => mret (Return 1%Z)
    end.

(** Lines 399-405: the feature matrix, its clustering and the dense
    cluster volume. *)
Definition cluster_features (feature_volume_list : list (option (Volume A)))
    (roi : ROI) (nclusters : Z)
  : M A (Volume (item Z) * ndarray A * list string) :=
  fm ← on_heap (create_feature_matrix feature_volume_list (Some roi) false);
  match fm with
  | None => lift_result (Raise TypeError)
  | Some (pruned_feature_array, frameofreference, full_feature_array,
          feat_column_labels) =>
      (* Cluster and create cluster volume *)
      pruned_cluster_vector ←
        lift_result (cluster_kmeans (PyArray pruned_feature_array) nclusters
                       (1 # 10000)%Q 1%Z);
      s ← get_state;
      match pruned_cluster_vector with
      | VArray labels =>
          dense_cluster_volume ←
            lift_result (expand_pruned_vector (st_heap s) labels (Some roi)
                           frameofreference (-1)%Z);
          mret (dense_cluster_volume, full_feature_array, feat_column_labels)
      | _ => lift_result (Raise AttributeError)
      end
  end.

(** [DOICluster(doi_list, local_feature_defs, nclusters, recluster)] *)
Definition DOICluster (doi_list : doi_arg A) (local_feature_defs : list FD)
    (nclusters : Z) (recluster : bool) : M A Z :=
  let doi_list :=
    match doi_list with
    | OneDOI d => [d]
    | DOIList l => l
    end in
  fl ← for_each_flow doi_list (load_doi local_feature_defs recluster) ([], None);
  match fl with
  | Return r => mret r
  | Next (feature_volume_list, None) =>
      (* no pass of the loop: roi was never bound *)
      lift_result (Raise UnboundLocalError)
  | Next (feature_volume_list, Some locals) =>
      '(dense_cluster_volume, full_feature_array, feat_column_labels) ←
        cluster_features feature_volume_list (l_roi locals) nclusters;
      (* then pickle it *)
      os_makedirs (l_p_doi_clusters locals);;
      write_pickle (l_p_clusters_l1_pickle locals)
        (PickledClusters dense_cluster_volume);;
      (* store feature matrix in pickle as numpy ndarray *)
      write_pickle (getClusterL1FeaturesPicklePath (l_doi locals))
        (PickledFeatures full_feature_array feat_column_labels);;
      if l_reclustered locals then mret 11%Z else mret 0%Z
  end.
End work_unit.

(** ** Batch worker *)

(** The argument of the worker: a tuple that holds the positional
    arguments of [DOICluster] in order, as many as it has; [extra] are
    the components after the third. *)
Inductive worker_args (A FD : Type) : Type :=
  | Args0
  | Args1 (doi : doi_arg A)
  | Args2 (doi : doi_arg A) (local_feature_def : list FD)
  | Args3 (doi : doi_arg A) (local_feature_def : list FD) (nclusters : Z)
          (extra : list (pyobj A)).
Arguments Args0 {A FD}.
Arguments Args1 {A FD} doi.
Arguments Args2 {A FD} doi local_feature_def.
Arguments Args3 {A FD} doi local_feature_def nclusters extra.

Section worker.
Context {A FD : Type}.
(** [time.strftime('%H:%M:%S', time.gmtime(seconds))] *)
Context (strftime_gmtime : Q → string).
(** The function bound to the name [DOICluster] when the worker runs. *)
Context (DOICluster : doi_arg A → list FD → Z → bool → M A Z).

(** Lines 429-440: the label of a status code. *)
Definition result_strings (result_code : Z) : Z * string :=
  if (result_code =? 0)%Z then (result_code, "success")
  else if (result_code =? 1)%Z then (result_code, "missing data")
  else if (result_code =? 10)%Z then (result_code, "skipped")
  else if (result_code =? 11)%Z then (result_code, "recalc")
  else
    (* unknown result *)
    ((-1)%Z, "unknown").

(** [worker_DOICluster(args_tuple)]; [time_start] and [time_end] are the
    two readings of [time.time()].  The [try] block turns every exception
    raised inside it into code 2: the exception of the call, the
    [TypeError] of a call with more than three positional arguments
    beside the keyword [recluster], and the [ValueError] of unpacking
    fewer than three components.  In the last case the name [doi] was
    never bound, and the [return] statement, which reads it, raises. *)
Definition worker_DOICluster (args_tuple : worker_args A FD)
    (time_start time_end : Q) : M A (Z * string * string * doi_arg A) := λ s,
  let job_time_string := strftime_gmtime (time_end - time_start)%Q in
  match args_tuple with
  | Args3 doi local_feature_def nclusters extra =>
      let '(outcome, s') :=
        match extra with
        | [] => DOICluster doi local_feature_def nclusters true s
        | _ :: _ => (Raise TypeError, s)
        end in
      let '(result_code, result_string) :=
        match outcome with
        | Ok result_code => result_strings result_code
        | Raise e => (2%Z, "exception")
        end in
      (Ok (result_code, result_string, job_time_string, doi), s')
  | _ => (Raise UnboundLocalError, s)
  end.
End worker.

(** ** Auxiliary notions used in the statements *)

Definition size_x (f : FrameOfReference.t) : nat := (FrameOfReference.size f).1.1.
Definition size_y (f : FrameOfReference.t) : nat := (FrameOfReference.size f).1.2.
Definition size_z (f : FrameOfReference.t) : nat := (FrameOfReference.size f).2.

(** The array has the (z, y, x) shape of the frame and as many entries. *)
Definition on_grid {A} (a : ndarray A) (f : FrameOfReference.t) : Prop :=
  shape a = [size_z f; size_y f; size_x f] ∧
  length (data a) = size_z f * size_y f * size_x f.

(** The array is indexable at every voxel of the frame: three axes, each
    at least as long as the frame's. *)
Definition covers_grid {A} (a : ndarray A) (f : FrameOfReference.t) : Prop :=
  ∃ s0 s1 s2, shape a = [s0; s1; s2] ∧ length (data a) = s0 * s1 * s2 ∧
              size_z f ≤ s0 ∧ size_y f ≤ s1 ∧ size_x f ≤ s2.

(** The entry at a flat position, as indexing reads it. *)
Definition getflat {A} (l : list A) (i : nat) : result A :=
  match l !! i with
  | Some x => Ok x
  | None => Raise IndexError
  end.

(** The entries of [xs] at the positions where the mask is 1. *)
Fixpoint select {A} (mask : list Z) (xs : list A) : list A :=
  match mask, xs with
  | m :: mask', x :: xs' =>
      if (m =? 1)%Z then x :: select mask' xs' else select mask' xs'
  | _, _ => []
  end.

(** A voxel value where the mask is 1, the fill value elsewhere. *)
Definition masked {A} (fill : A) (m : Z) (x : A) : A :=
  if (m =? 1)%Z then x else fill.

(** A volume of the list is rejected by the assembly loop: it is [None]
    or its conformed array does not have the reference shape. *)
Definition rejected {A} `{!RtTypes A} (h : heap) (frameofreference : addr)
    (vol : option (Volume A)) : Prop :=
  match vol with
  | None => True
  | Some v =>
      shape (conformTo v (h !!! frameofreference)) ≠
      [size_z (h !!! frameofreference); size_y (h !!! frameofreference);
       size_x (h !!! frameofreference)]
  end.

(** The voxel volume of a volume's frame of reference, as the scan for
    the highest resolution computes it. *)
Definition voxel_volume `{!Numpy} {A} (h : heap) (v : Volume A) : np_scalar :=
  np_product (FrameOfReference.spacing (h !!! frameofreference v)).

(** The number a float stands for; an infinity and a NaN stand for
    none. *)
Definition float_value (f : float) : option Q :=
  match Prim2SF f with
  | S754_zero _ => Some 0%Q
  | S754_finite s m e =>
      Some (inject_Z (if s then Z.neg m else Z.pos m) * Qpower 2 e)%Q
  | _ => None
  end.

Definition number_value (x : number) : option Q :=
  match x with
  | PyInt n => Some (inject_Z n)
  | PyFloat f => float_value f
  end.

(** The voxel volume in the words of the design document: the product
    of the spacing components, as a number. *)
Definition exact_voxel_volume {A} (h : heap) (v : Volume A) : option Q :=
  let '(sx, sy, sz) := FrameOfReference.spacing (h !!! frameofreference v) in
  match number_value sx, number_value sy, number_value sz with
  | Some x, Some y, Some z => Some (x * y * z)%Q
  | _, _, _ => None
  end.

(** [<] behaves as a strict order on the scalars of a list: no scalar is
    below itself, and being below is transitive.  numpy's scalars
    compare so, a NaN included (it is below nothing and nothing is below
    it). *)
Definition strictly_ordered `{!Numpy} (rs : list np_scalar) : Prop :=
  (∀ a, a ∈ rs → np_less a a = false) ∧
  (∀ a b c, a ∈ rs → b ∈ rs → c ∈ rs →
     np_less a b = true → np_less b c = true → np_less a c = true).

(** A vector of [n] integer labels from [lo] up to, and without, [hi]. *)
Definition labels_within (n : nat) (lo hi : Z) (labels : ndarray Z) : Prop :=
  shape labels = [n] ∧ length (data labels) = n ∧
  Forall (λ l, (lo ≤ l < hi)%Z) (data labels).

(** A strategy returned a label vector: [n] integers in [0, k). *)
Definition label_vector {O} (n : nat) (k : Z) (r : result (pyval O)) : Prop :=
  ∃ labels, r = Ok (VArray labels) ∧ labels_within n 0 k labels.

(** The number of samples of a matrix: its rows. *)
Definition n_samples {A} (X : ndarray A) : nat := hd 0 (shape X).

(** What the documentation of scikit-learn promises of the calls made
    here: standardising keeps the shape of the matrix, and a fitted
    estimator labels every sample with a cluster index from 0 up to, and
    without, the number of clusters it was built for. *)
Record SklearnContract (A : Type) `{!Sklearn A} : Prop := {
  StandardScaler_shape : ∀ X X',
    StandardScaler_fit_transform X = Ok X' → shape X' = shape X;
  KMeans_labels : ∀ params X km labels,
    (1 ≤ km_n_clusters params)%Z →
    KMeans_fit params X = Ok km → KMeans_predict km X = Ok labels →
    labels_within (n_samples X) 0 (km_n_clusters params) labels;
  AgglomerativeClustering_labels : ∀ params X labels agg,
    (1 ≤ agg_n_clusters params)%Z →
    AgglomerativeClustering_fit_predict params X = Ok (labels, agg) →
    labels_within (n_samples X) 0 (agg_n_clusters params) labels
}.

(** What the documentation of SciPy promises: [fcluster] with criterion
    "maxclust" gives every observation of the linkage a flat cluster
    number from 1 up to, and with, the bound [t]. *)
Record ScipyContract (A : Type) `{!Scipy A} : Prop := {
  fcluster_labels : ∀ X method metric linkage_matrix t labels,
    (1 ≤ t)%Z →
    sch_linkage X method metric = Ok linkage_matrix →
    sch_fcluster linkage_matrix t "maxclust" = Ok labels →
    labels_within (n_samples X) 1 (t + 1) labels
}.

Section work_unit_notions.
Context {A FD : Type} `{!FeatureDefs FD}.
Implicit Types (d : DOI A) (s : state A).

(** The feature file of a definition is found and holds a volume. *)
Definition feature_found d (modality : string) s (fd : FD) (v : Volume A) : Prop :=
  ∃ first others,
    findFiles (enforceGLCMQuantizationMode fd modality) (getFeaturesPath d)
      (dom (st_files s)) = first :: others ∧
    st_files s !! first = Some (PickledVolume v).

(** The output of the subject exists already. *)
Definition clustered d s : Prop :=
  is_Some (st_files s !! getClusterL1PicklePath d) ∨
  getClusterL1PicklePath d ∈ st_dirs s.

End work_unit_notions.

(** ** Stand-ins for the collaborators, for closed examples *)

Module Doubles.
(** The float of a whole number, exact below 2^53. *)
Fixpoint float_of_positive (p : positive) : float :=
  match p with
  | xH => 1%float
  | xO p' => PrimFloat.mul 2%float (float_of_positive p')
  | xI p' => PrimFloat.add (PrimFloat.mul 2%float (float_of_positive p')) 1%float
  end.

Definition as_float (x : number) : float :=
  match x with
  | PyInt Z0 => 0%float
  | PyInt (Zpos p) => float_of_positive p
  | PyInt (Zneg p) => PrimFloat.opp (float_of_positive p)
  | PyFloat f => f
  end.

(** The float64 product of a tuple of three, taken from left to right.
    A whole number counts as the float of the same value, which gives
    the int64 product as long as it stays below 2^53. *)
Definition float_product (t : number * number * number) : float :=
  PrimFloat.mul (PrimFloat.mul (as_float t.1.1) (as_float t.1.2)) (as_float t.2).

(** numpy from version 1.24 on: a ragged list is an error. *)
#[export] Instance numpy : Numpy.
Proof.
  refine {| np_array_ragged A l := Raise ValueError;
            np_scalar := float;
            np_product := float_product;
            np_less := PrimFloat.ltb |}.
  intros A l a H. discriminate H.
Defined.

(** numpy from version 1.19 to 1.23: a ragged list gives an array of
    objects. *)
Definition numpy_objects : Numpy.
Proof.
  refine {| np_array_ragged A l := Ok (NdArray [length l] l);
            np_scalar := float;
            np_product := float_product;
            np_less := PrimFloat.ltb |}.
  intros A l a [= <-]. by split.
Defined.

(** Text in ASCII only. *)
#[export] Instance unicode : Unicode := {|
  lower := ascii_lower_string;
  lower_ascii s _ := eq_refl
|}.

(** Volumes that already lie on any grid: resampling and flattening
    keep the entries. *)
#[export] Instance rttypes : RtTypes Z := {|
  vectorize v roi := NdArray [length (data (array v))] (data (array v));
  conformTo v f := array v;
  generate_heatmap_label v := modality v;
  nan_to_num x := x
|}.

(** Estimators that put every sample in cluster 0. *)
#[export] Instance sklearn : Sklearn Z := {|
  KMeans := KMeansParams;
  AgglomerativeClustering := AgglomerativeParams;
  StandardScaler_fit_transform X := Ok X;
  SparsePCA_fit_transform X := Ok X;
  KMeans_fit params X := Ok params;
  KMeans_score km X := Ok 0%Q;
  KMeans_predict km X := Ok (np_array (replicate (hd 0 (shape X)) 0%Z));
  AgglomerativeClustering_fit_predict params X :=
    Ok (np_array (replicate (hd 0 (shape X)) 0%Z), params)
|}.

(** A linkage that remembers the number of observations with the method
    and the metric, and a cut that deals the cluster numbers 1 to [t] out
    to the observations in turn. *)
#[export] Instance scipy : Scipy Z := {|
  LinkageMatrix := nat * string * string;
  sch_linkage X method metric := Ok (hd 0 (shape X), method, metric);
  sch_fcluster linkage_matrix t criterion :=
    Ok (np_array ((λ i, 1 + Z.of_nat i `mod` t)%Z <$> seq 0 linkage_matrix.1.1))
|}.

(** A feature definition is a file name under the features path. *)
#[export] Instance featuredefs : FeatureDefs string := {|
  enforceGLCMQuantizationMode fd modality := fd;
  findFiles fd path files :=
    if bool_decide (os_path_join path fd ∈ files) then [os_path_join path fd] else [];
  generateFilename fd := fd
|}.

Definition strftime_gmtime (seconds : Q) : string := "00:00:00".

(** A 2 x 1 x 1 grid (x, y, z) with spacing 2, at address 0. *)
Definition frame : FrameOfReference.t :=
  FrameOfReference.Build (2, 1, 1) (PyInt 2, PyInt 2, PyInt 2).
Definition store : heap := {[ 0 := frame ]}.
Definition volume : Volume Z := MkVolume (NdArray [1; 1; 2] [7; 9]%Z) 0 "CT".
(** A mask that keeps the second voxel, and one that keeps the first. *)
Definition roi : ROI := MkROI 0 (λ f, NdArray [1; 1; 2] [0; 1]%Z).
Definition first_roi : ROI := MkROI 0 (λ f, NdArray [1; 1; 2] [1; 0]%Z).
(** A mask whose array is larger than the grid. *)
Definition wide_roi : ROI := MkROI 0 (λ f, NdArray [1; 1; 3] [0; 1; 1]%Z).
(** A mask whose array is shorter than the grid. *)
Definition short_roi : ROI := MkROI 0 (λ f, NdArray [1; 1; 1] [1%Z]).

(** A second frame with spacing 3, at address 1, and a volume on it. *)
Definition coarse_frame : FrameOfReference.t :=
  FrameOfReference.Build (2, 1, 1) (PyInt 3, PyInt 3, PyInt 3).
Definition store2 : heap := <[ 1 := coarse_frame ]> store.
Definition coarse_volume : Volume Z := MkVolume (NdArray [1; 1; 2] [3; 4]%Z) 1 "PET".

(** Two frames with spacings in millimetres, (0.7, 0.5, 0.3) at address 0
    and (0.1, 0.7, 1.5) at address 1, each the nearest float: the
    products are 0.105 and 0.10499999999999998. *)
Definition frame_a : FrameOfReference.t :=
  FrameOfReference.Build (2, 1, 1)
    (PyFloat 0x1.6666666666666p-1, PyFloat 0x1p-1, PyFloat 0x1.3333333333333p-2).
Definition frame_b : FrameOfReference.t :=
  FrameOfReference.Build (2, 1, 1)
    (PyFloat 0x1.999999999999ap-4, PyFloat 0x1.6666666666666p-1, PyFloat 0x1.8p0).
Definition store3 : heap := <[ 1 := frame_b ]> {[ 0 := frame_a ]}.

Definition subject : DOI Z := {|
  doi := "doi1";
  p_CLUSTERS := "/clusters";
  getFeaturesPath := "/features";
  getClusterL1PicklePath := "/clusters/doi1/l1.pickle";
  getClusterL1FeaturesPicklePath := "/clusters/doi1/l1_features.pickle";
  getImageVolume := Ok (Some volume);
  getROI := Ok (Some roi)
|}.

(** A subject whose region of interest is missing, and a second subject
    with its own output paths. *)
Definition subject_without_roi : DOI Z := {|
  doi := "doi0";
  p_CLUSTERS := "/clusters";
  getFeaturesPath := "/features";
  getClusterL1PicklePath := "/clusters/doi0/l1.pickle";
  getClusterL1FeaturesPicklePath := "/clusters/doi0/l1_features.pickle";
  getImageVolume := Ok (Some volume);
  getROI := Ok None
|}.


Definition fresh_state : state Z := MkState store ∅ ∅.

(** A state with one feature file, and the definition that finds it. *)
Definition loaded_state : state Z :=
  MkState store {[ "/features/glcm.pickle" := PickledVolume volume ]} ∅.
Definition feature_defs : list string := ["glcm.pickle"].
End Doubles.

(** ** Further notions used in the statements *)

(** The number of mask entries equal to 1. *)
Fixpoint count_ones (mask : list Z) : nat :=
  match mask with
  | [] => 0
  | m :: mask' => (if (m =? 1)%Z then 1 else 0) + count_ones mask'
  end.

(** The entries of a pruned vector put back at the positions where the
    mask is 1, in order, with the fill value elsewhere. *)
Definition scatter {A} (mask : list Z) (pruned : list A) (fill : A) : list A :=
  imap (λ i m,
    if (m =? 1)%Z then default fill (pruned !! count_ones (take i mask)) else fill)
    mask.

(** One pass of the innermost loop of [expand_pruned_vector], at the
    flat position [i] of the mask. *)
Definition expand_step {A} (mask : list Z) (fill : A) (pruned : ndarray A) (i : nat)
    (st : list (item A) * nat) : result (list (item A) * nat) :=
  let '(expanded_vector, pruned_idx) := st in
  m ← getflat mask i;
  if (m =? 1)%Z then
    x ← getitem pruned pruned_idx;
    Ok (expanded_vector ++ [x], S pruned_idx)
  else Ok (expanded_vector ++ [Entry fill], pruned_idx).

(** What the expansion of a column of shape (N, 1) appends for a voxel:
    the one-entry row of its value where the mask is 1, the fill value
    elsewhere. *)
Definition masked_row {A} (fill : A) (m : Z) (x : A) : item A :=
  if (m =? 1)%Z then SubArray (NdArray [1] [x]) else Entry fill.

(** The mask keeps every voxel, or none. *)
Definition uniform (mask : list Z) : Prop :=
  count_ones mask = 0 ∨ count_ones mask = length mask.

(** A numpy array has as many entries as its shape says. *)
Definition well_formed {A} (a : ndarray A) : Prop :=
  length (data a) = foldr Nat.mul 1 (shape a).

#[global] Instance rejected_dec {A} `{!RtTypes A} (h : heap) (frameofreference : addr)
  (vol : option (Volume A)) : Decision (rejected h frameofreference vol).
Proof. destruct vol; simpl; apply _. Defined.

(** The volumes the assembly loop keeps, as it conforms them. *)
Definition accepted {A} `{!RtTypes A} (h : heap) (frameofreference : addr)
    (feature_volumes : list (option (Volume A))) : list (Volume A) :=
  omap (λ vol,
    match vol with
    | Some v =>
        if decide (rejected h frameofreference (Some v)) then None
        else Some (MkVolume (conformTo v (h !!! frameofreference)) frameofreference
                            (modality v))
    | None => None
    end) feature_volumes.

(** The subjects of the first argument of [DOICluster]. *)
Definition subjects {A} (doi_list : doi_arg A) : list (DOI A) :=
  match doi_list with
  | OneDOI d => [d]
  | DOIList l => l
  end.

Section work_unit_loading.
Context {A FD : Type} `{!FeatureDefs FD}.

End work_unit_loading.

(** ** Log line of the batch *)



Section logstring.
Context {A : Type}.
(** [str(doi)] *)
Context (str_doi : DOI A → string).

End logstring.

(** * Properties *)

(** Closed examples run on the stand-ins of [Doubles]. *)
Import Doubles.

(** ** Loops *)

Section loops.
Context {X S : Type}.
Implicit Types (body : X → S → result S) (s : S).

Lemma for_each_app xs ys body s :
  for_each (xs ++ ys) body s = for_each xs body s ≫= for_each ys body.
Proof.
  revert s. induction xs as [|x xs IH]; intros s; simpl; [done|].
  destruct (body x s) as [s'|e]; simpl; [apply IH | done].
Qed.

Lemma for_each_ext xs body body' s :
  (∀ x s, x ∈ xs → body x s = body' x s) →
  for_each xs body s = for_each xs body' s.
Proof.
  revert s. induction xs as [|x xs IH]; intros s Hext; simpl; [done|].
  rewrite Hext by left.
  destruct (body' x s) as [s'|e]; simpl; [|done].
  apply IH. intros y t Hy. apply Hext. by right.
Qed.

(** A loop returns when every pass does. *)
Lemma for_each_returns xs body s :
  (∀ x s, x ∈ xs → ∃ s', body x s = Ok s') →
  ∃ s', for_each xs body s = Ok s'.
Proof.
  revert s. induction xs as [|x xs IH]; intros s Hok; simpl; [by eexists|].
  destruct (Hok x s) as [s' ->]; [left|]. simpl.
  apply IH. intros y t Hy. apply Hok. by right.
Qed.

(** An exception of a loop is the exception of one of its passes. *)
Lemma for_each_raises xs body s e :
  for_each xs body s = Raise e → ∃ x t, x ∈ xs ∧ body x t = Raise e.
Proof.
  revert s. induction xs as [|x xs IH]; intros s; simpl; [done|].
  destruct (body x s) as [s'|e'] eqn:Hb; simpl.
  - intros (y & t & Hy & Ht)%IH. exists y, t. split; [by right | done].
  - intros [= ->]. exists x, s. split; [left | done].
Qed.

(** A loop that returns has run every pass to its end. *)
Lemma for_each_ok_inv xs body s s' x :
  for_each xs body s = Ok s' → x ∈ xs → ∃ t t', body x t = Ok t'.
Proof.
  revert s. induction xs as [|y xs IH]; intros s Hrun Hx; [by inversion Hx|].
  simpl in Hrun. destruct (body y s) as [t'|e] eqn:Hb; simpl in Hrun; [|done].
  apply elem_of_cons in Hx as [->|Hx]; [by exists s, t' | by eapply IH].
Qed.
End loops.

Section ranges.
Context {S : Type}.
Implicit Types (body step : nat → S → result S) (s : S).

Lemma for_each_seq_shift a n body s :
  for_each (seq a n) body s = for_each (seq 0 n) (λ i, body (a + i)) s.
Proof.
  revert a body s. induction n as [|n IH]; intros a body s; simpl; [done|].
  rewrite Nat.add_0_r. destruct (body a s) as [s'|e]; simpl; [|done].
  rewrite (IH (Datatypes.S a)), (IH 1 (λ i, body (a + i))). apply for_each_ext.
  intros i t _. by rewrite Nat.add_succ_r.
Qed.

Lemma for_range_S n body s :
  for_range (Datatypes.S n) body s = for_range n body s ≫= body n.
Proof.
  unfold for_range. rewrite seq_S, for_each_app. simpl.
  destruct (for_each (seq 0 n) body s) as [s'|e]; simpl; [|done].
  by destruct (body n s').
Qed.

Lemma for_range_ext n body body' s :
  (∀ i s, i < n → body i s = body' i s) →
  for_range n body s = for_range n body' s.
Proof.
  intros Hext. apply for_each_ext. intros i t Hi. apply Hext.
  apply elem_of_seq in Hi. lia.
Qed.

(** Two nested loops run through the flat positions [i * m + j]. *)
Lemma for_range_nest n m (inner : nat → nat → S → result S) step s :
  (∀ i j s, i < n → j < m → inner i j s = step (i * m + j) s) →
  for_range n (λ i s, for_range m (inner i) s) s = for_range (n * m) step s.
Proof.
  induction n as [|n IH]; intros Hin; [done|].
  rewrite for_range_S, IH by (intros; apply Hin; lia).
  replace (Datatypes.S n * m) with (n * m + m) by lia.
  unfold for_range at 3. rewrite seq_app, for_each_app. fold (for_range (n * m) step s).
  destruct (for_range (n * m) step s) as [s'|e]; simpl; [|done].
  rewrite for_each_seq_shift. apply for_range_ext.
  intros j t Hj. apply Hin; lia.
Qed.

(** The three loops over (d, r, c) run through the flat positions of a
    (z, y, x) array in order. *)
Lemma for_range3_flat sz sy sx (body : nat → nat → nat → S → result S) step s :
  (∀ d r c s, d < sz → r < sy → c < sx →
     body d r c s = step ((d * sy + r) * sx + c) s) →
  for_range sz (λ d s, for_range sy (λ r s, for_range sx (λ c s, body d r c s) s) s) s
  = for_range (sz * sy * sx) step s.
Proof.
  intros Hbody. rewrite <-Nat.mul_assoc.
  rewrite <-(for_range_nest sz (sy * sx)
               (λ d j s, step (d * (sy * sx) + j) s) step s) by done.
  apply for_range_ext. intros d t Hd.
  apply (for_range_nest sy sx (λ r c s, body d r c s)).
  intros r c u Hr Hc. rewrite Hbody by done. f_equal. lia.
Qed.
End ranges.

(** ** Mask projector *)

Section projector_facts.
Context {A : Type}.
Implicit Types (mask : list Z) (xs : list A) (a : ndarray A).

Lemma getflat_lt {B} (l : list B) i :
  i < length l → ∃ x, l !! i = Some x ∧ getflat l i = Ok x.
Proof.
  intros [x Hx]%lookup_lt_is_Some. exists x. unfold getflat. by rewrite Hx.
Qed.

Lemma flat_index_lt sz sy sx d r c :
  d < sz → r < sy → c < sx → (d * sy + r) * sx + c < sz * sy * sx.
Proof.
  intros Hd Hr Hc.
  assert (d * sy + r + 1 ≤ sz * sy) as Hrow by nia.
  apply (Nat.mul_le_mono_r _ _ sx) in Hrow. lia.
Qed.

(** Inside the bounds, indexing reads the flat position. *)
Lemma getitem3_flat {B} (b : ndarray B) s0 s1 s2 d r c :
  shape b = [s0; s1; s2] → d < s0 → r < s1 → c < s2 →
  getitem3 b d r c = getflat (data b) ((d * s1 + r) * s2 + c).
Proof.
  intros Hs Hd Hr Hc. unfold getitem3, getflat. rewrite Hs.
  apply Nat.ltb_lt in Hd, Hr, Hc. by rewrite Hd, Hr, Hc.
Qed.

(** Outside the bounds, indexing raises. *)
Lemma getitem3_out {B} (b : ndarray B) s0 s1 s2 d r c :
  shape b = [s0; s1; s2] → s0 ≤ d ∨ s1 ≤ r ∨ s2 ≤ c →
  getitem3 b d r c = Raise IndexError.
Proof.
  intros Hs Hout. unfold getitem3. rewrite Hs.
  destruct (d <? s0) eqn:Hd, (r <? s1) eqn:Hr, (c <? s2) eqn:Hc; simpl; try done.
  apply Nat.ltb_lt in Hd, Hr, Hc. lia.
Qed.

Lemma select_app mask1 mask2 xs1 xs2 :
  length mask1 = length xs1 →
  select (mask1 ++ mask2) (xs1 ++ xs2) = select mask1 xs1 ++ select mask2 xs2.
Proof.
  revert xs1. induction mask1 as [|m mask1 IH]; intros [|x xs1] Hlen;
    simplify_eq/=; [done|].
  rewrite IH by done. by destruct (m =? 1)%Z.
Qed.

Lemma select_take_S mask xs i m x :
  length mask = length xs → mask !! i = Some m → xs !! i = Some x →
  select (take (Datatypes.S i) mask) (take (Datatypes.S i) xs)
  = select (take i mask) (take i xs) ++ (if (m =? 1)%Z then [x] else []).
Proof.
  intros Hlen Hm Hx. rewrite (take_S_r _ _ _ Hm), (take_S_r _ _ _ Hx).
  rewrite select_app by (rewrite !length_take; lia).
  simpl. by destruct (m =? 1)%Z.
Qed.

(** The entry that pruning stored for position [i] sits right after
    the entries stored for the positions before it. *)
Lemma select_lookup mask xs i x :
  length mask = length xs → mask !! i = Some 1%Z → xs !! i = Some x →
  select mask xs !! length (select (take i mask) (take i xs)) = Some x.
Proof.
  intros Hlen Hm Hx.
  assert (select mask xs
          = select (take i mask) (take i xs) ++ select (drop i mask) (drop i xs))
    as ->.
  { rewrite <-select_app by (rewrite !length_take; lia). by rewrite !take_drop. }
  rewrite lookup_app_r, Nat.sub_diag by done.
  rewrite (drop_S _ _ _ Hm), (drop_S _ _ _ Hx). done.
Qed.

(** The pruning loops, flattened: after [i] positions the vector holds
    the selected entries among the first [i]. *)
Lemma prune_flat mask xs i :
  length mask = length xs → i ≤ length mask →
  for_range i (λ i pruned_vector,
    m ← getflat mask i;
    if (m =? 1)%Z then x ← getflat xs i; Ok (pruned_vector ++ [x])
    else Ok pruned_vector) []
  = Ok (select (take i mask) (take i xs)).
Proof.
  intros Hlen. induction i as [|i IH]; intros Hi; [done|].
  rewrite for_range_S, IH by lia. simpl.
  destruct (getflat_lt mask i) as (m & Hm & ->); [lia|].
  destruct (getflat_lt xs i) as (x & Hx & ->); [lia|]. simpl.
  rewrite (select_take_S mask xs i m x) by done.
  destruct (m =? 1)%Z; simpl; [done | by rewrite app_nil_r].
Qed.

Lemma count_ones_app mask1 mask2 :
  count_ones (mask1 ++ mask2) = count_ones mask1 + count_ones mask2.
Proof. induction mask1 as [|m mask1 IH]; simpl; [done|]. rewrite IH. lia. Qed.

Lemma count_ones_take_S mask i m :
  mask !! i = Some m →
  count_ones (take (Datatypes.S i) mask)
  = count_ones (take i mask) + (if (m =? 1)%Z then 1 else 0).
Proof.
  intros Hm. rewrite (take_S_r _ _ _ Hm), count_ones_app. simpl. lia.
Qed.

Lemma count_ones_take_le mask i : count_ones (take i mask) ≤ count_ones mask.
Proof.
  rewrite <-(take_drop i mask) at 2. rewrite count_ones_app. lia.
Qed.

Lemma count_ones_le mask : count_ones mask ≤ length mask.
Proof. induction mask as [|m mask IH]; simpl; [done|]. destruct (m =? 1)%Z; lia. Qed.

(** A mask with no 1 has no entry equal to 1; a mask of ones only has no
    other entry. *)
Lemma count_ones_none mask m : count_ones mask = 0 → m ∈ mask → (m =? 1)%Z = false.
Proof.
  induction mask as [|m' mask IH]; simpl; [by inversion 2|].
  intros Hc [<-|Hin]%elem_of_cons.
  - destruct (m =? 1)%Z; [lia | done].
  - apply IH; [|done]. destruct (m' =? 1)%Z; lia.
Qed.

Lemma count_ones_all mask m :
  count_ones mask = length mask → m ∈ mask → (m =? 1)%Z = true.
Proof.
  induction mask as [|m' mask IH]; simpl; [by inversion 2|].
  pose proof (count_ones_le mask).
  intros Hc [<-|Hin]%elem_of_cons.
  - destruct (m =? 1)%Z; [done | lia].
  - apply IH; [|done]. destruct (m' =? 1)%Z; lia.
Qed.

(** A mask that is not uniform has a 1 and an entry that is not 1. *)
Lemma count_ones_mixed mask :
  ¬ uniform mask →
  (∃ m, m ∈ mask ∧ (m =? 1)%Z = true) ∧ (∃ m, m ∈ mask ∧ (m =? 1)%Z = false).
Proof.
  unfold uniform. induction mask as [|m mask IH]; simpl; [by intros []; left|].
  intros Hmixed. pose proof (count_ones_le mask) as Hle.
  destruct (m =? 1)%Z eqn:Hm.
  - split; [exists m; split; [left | done]|].
    destruct (decide (count_ones mask = length mask)) as [Hall|Hless]; [lia|].
    destruct (decide (count_ones mask = 0)) as [Hnone|Hsome].
    + destruct mask as [|m' mask]; [simpl in *; lia|].
      exists m'. split; [right; left|]. eapply count_ones_none; [done | left].
    + destruct IH as [_ (m' & Hin & Hm')]; [tauto|]. exists m'. split; [by right | done].
  - split; [|exists m; split; [left | done]].
    destruct (decide (count_ones mask = 0)) as [Hnone|Hsome]; [lia|].
    destruct (decide (count_ones mask = length mask)) as [Hall|Hless].
    + destruct mask as [|m' mask]; [simpl in *; lia|].
      exists m'. split; [right; left|]. eapply count_ones_all; [done | left].
    + destruct IH as [(m' & Hin & Hm') _]; [tauto|]. exists m'. split; [by right | done].
Qed.

Lemma select_length mask xs :
  length mask = length xs → length (select mask xs) = count_ones mask.
Proof.
  revert xs. induction mask as [|m mask IH]; intros [|x xs] Hlen; simplify_eq/=; [done|].
  destruct (m =? 1)%Z; simpl; rewrite IH; done.
Qed.

(** ** What indexing the pruned vector gives *)

Lemma getitem_inv a i it : getitem a i = Ok it → i < hd 0 (shape a).
Proof.
  unfold getitem. destruct (shape a) as [|n [|k rest]]; [done| |]; simpl;
    (destruct (i <? n) eqn:Hi; [|done]); apply Nat.ltb_lt in Hi; done.
Qed.

Lemma getitem_error a i e : getitem a i = Raise e → e = IndexError.
Proof.
  unfold getitem. destruct (shape a) as [|n [|k rest]]; [congruence| |];
    (destruct (i <? n); [|congruence]); [|done].
  destruct (data a !! i); congruence.
Qed.

(** On a vector of shape (N,), an entry. *)
Lemma getitem_vector a i :
  shape a = [length (data a)] → getitem a i = Entry <$> getflat (data a) i.
Proof.
  intros Hshape. unfold getitem, getflat. rewrite Hshape.
  destruct (i <? length (data a)) eqn:Hi; [by destruct (data a !! i)|].
  apply Nat.ltb_ge in Hi. by rewrite lookup_ge_None_2.
Qed.

(** On a column of shape (N, 1), a row of one entry. *)
Lemma getitem_column a i x :
  shape a = [length (data a); 1] → data a !! i = Some x →
  getitem a i = Ok (SubArray (NdArray [1] [x])).
Proof.
  intros Hshape Hx. unfold getitem. rewrite Hshape.
  rewrite (proj2 (Nat.ltb_lt _ _) (lookup_lt_Some _ _ _ Hx)). simpl.
  rewrite Nat.mul_1_r, (drop_S _ _ _ Hx). simpl. by rewrite take_0.
Qed.

(** ** What [np.array] makes of the expanded list *)

Lemma stack_entry (s : list nat) (l : list (item A)) :
  Exists (λ it, is_entry it = true) l → stack s l = None.
Proof.
  induction 1 as [[x|a] l Hx | [x|a] l _ IH]; simpl; try done.
  destruct (bool_decide _); [|done]. by rewrite IH.
Qed.

(** Scalars alone: a vector of the scalars. *)
Lemma np_array_items_entries `{!Numpy} xs :
  np_array_items (Entry <$> xs) = Ok (NdArray [length xs] (Entry <$> xs) : ndarray (item A)).
Proof.
  unfold np_array_items.
  assert (forallb is_entry (Entry <$> xs : list (item A)) = true) as ->.
  { by induction xs as [|x xs IH]. }
  by rewrite length_fmap.
Qed.

(** One-entry rows alone: the entries, as a column. *)
Lemma np_array_items_rows `{!Numpy} xs :
  ∃ arr : ndarray (item A),
    np_array_items ((λ x, SubArray (NdArray [1] [x])) <$> xs) = Ok arr ∧
    data arr = Entry <$> xs.
Proof.
  assert (∀ l : list A, stack [1] ((λ x, SubArray (NdArray [1] [x])) <$> l) = Some l)
    as Hstack.
  { induction l as [|x l IH]; [done|]. rewrite fmap_cons. cbn [stack shape data].
    rewrite bool_decide_true by done. by rewrite IH. }
  destruct xs as [|x0 xs]; [by eexists|]. unfold np_array_items.
  specialize (Hstack (x0 :: xs)). rewrite fmap_cons in Hstack |- *.
  cbn [forallb is_entry andb shape]. rewrite Hstack. by eexists.
Qed.

(** Scalars beside arrays: a ragged list. *)
Lemma np_array_items_mixed `{!Numpy} (l : list (item A)) :
  Exists (λ it, is_entry it = true) l → Exists (λ it, is_entry it = false) l →
  np_array_items l = np_array_ragged l.
Proof.
  intros Hentry Harray. unfold np_array_items.
  assert (forallb is_entry l = false) as ->.
  { clear Hentry. induction Harray as [it l Hit | it l _ IH]; simpl;
      [by rewrite Hit | by rewrite IH, andb_false_r]. }
  destruct l as [|[x|a0] l']; [done..|].
  by rewrite (stack_entry _ _ Hentry).
Qed.

(** The array that is built holds the scalars of the list in place. *)
Lemma np_array_items_data `{!Numpy} (l : list (item A)) arr j x :
  np_array_items l = Ok arr → l !! j = Some (Entry x) →
  data arr !! j = Some (Entry x).
Proof.
  intros Harr Hx. unfold np_array_items in Harr.
  destruct (forallb is_entry l); [by injection Harr as <-|].
  assert (Exists (λ it, is_entry it = true) l) as Hentry.
  { apply Exists_exists. exists (Entry x). split; [|done].
    by eapply list_elem_of_lookup_2. }
  assert (np_array_ragged l = Ok arr) as Hragged.
  { destruct l as [|[y|a0] l']; [done..|].
    by rewrite (stack_entry _ _ Hentry) in Harr. }
  by apply (np_array_ragged_scalars l arr Hragged).
Qed.

(** ** The expansion loops *)

(** What the loops have done when they return: one item per position,
    an entry of the vector consumed per 1 of the mask, and the fill value
    wherever the mask is not 1. *)
Lemma expand_loop_inv mask fill (pruned : ndarray A) i ev idx :
  i ≤ length mask →
  for_range i (expand_step mask fill pruned) ([], 0) = Ok (ev, idx) →
  length ev = i ∧ idx = count_ones (take i mask) ∧ idx ≤ hd 0 (shape pruned) ∧
  ∀ j b, j < i → mask !! j = Some b → b ≠ 1%Z → ev !! j = Some (Entry fill).
Proof.
  revert ev idx. induction i as [|i IH]; intros ev idx Hi.
  { intros [= <- <-]. repeat split; [lia|]. intros j b Hj. lia. }
  rewrite for_range_S.
  destruct (for_range i _ _) as [[ev0 idx0]|] eqn:Hrun; simpl; [|done].
  destruct (IH ev0 idx0 ltac:(lia) eq_refl) as (Hlen & Hidx & Hrows & Hfill).
  destruct (getflat_lt mask i) as (m & Hm & ->); [lia|]. simpl.
  rewrite (count_ones_take_S _ _ _ Hm).
  destruct (m =? 1)%Z eqn:Hm1.
  - destruct (getitem pruned idx0) as [x|] eqn:Hx; simpl; [|done]. intros [= <- <-].
    apply getitem_inv in Hx.
    split; [rewrite length_app; simpl; lia|]. split; [lia|]. split; [lia|].
    intros j b Hj Hb Hb1. destruct (decide (j = i)) as [->|Hne].
    + rewrite Hm in Hb. injection Hb as <-. apply Z.eqb_eq in Hm1. done.
    + rewrite lookup_app_l by lia. apply (Hfill j b); [lia|done..].
  - intros [= <- <-]. split; [rewrite length_app; simpl; lia|].
    split; [lia|]. split; [done|].
    intros j b Hj Hb Hb1. destruct (decide (j = i)) as [->|Hne].
    + rewrite lookup_app_r by lia. by rewrite Hlen, Nat.sub_diag.
    + rewrite lookup_app_l by lia. apply (Hfill j b); [lia|done..].
Qed.

(** The only exception of the loops is that of an index out of
    bounds. *)
Lemma expand_loop_error mask fill (pruned : ndarray A) i e :
  i ≤ length mask →
  for_range i (expand_step mask fill pruned) ([], 0) = Raise e → e = IndexError.
Proof.
  induction i as [|i IH]; intros Hi; [done|].
  rewrite for_range_S.
  destruct (for_range i _ _) as [[ev0 idx0]|] eqn:Hrun; simpl;
    [|intros [= <-]; apply IH; [lia | done]].
  destruct (getflat_lt mask i) as (m & Hm & ->); [lia|]. simpl.
  destruct (m =? 1)%Z; [|done].
  destruct (getitem pruned idx0) as [x|] eqn:Hx; simpl; [done|].
  intros [= <-]. by eapply getitem_error.
Qed.

(** The loops on a vector of shape (N,): they run as long as the vector
    has an entry for every 1 of the mask met so far. *)
Lemma expand_loop_vector mask fill (pruned : ndarray A) i :
  i ≤ length mask → shape pruned = [length (data pruned)] →
  for_range i (expand_step mask fill pruned) ([], 0)
  = if decide (count_ones (take i mask) ≤ length (data pruned)) then
      Ok (Entry <$> take i (scatter mask (data pruned) fill), count_ones (take i mask))
    else Raise IndexError.
Proof.
  intros Hi Hshape. induction i as [|i IH]; [done|].
  rewrite for_range_S, IH by lia. clear IH.
  destruct (lookup_lt_is_Some_2 mask i) as [m Hm]; [lia|].
  rewrite (count_ones_take_S _ _ _ Hm).
  assert (take (Datatypes.S i) (scatter mask (data pruned) fill)
          = take i (scatter mask (data pruned) fill)
            ++ [if (m =? 1)%Z
                then default fill (data pruned !! count_ones (take i mask)) else fill])
    as ->.
  { apply take_S_r. unfold scatter. by rewrite list_lookup_imap, Hm. }
  destruct (decide (count_ones (take i mask) ≤ length (data pruned))) as [Hle|Hgt];
    simpl.
  - unfold getflat at 1. rewrite Hm. simpl.
    destruct (m =? 1)%Z; simpl.
    + rewrite getitem_vector by done. unfold getflat.
      destruct (data pruned !! count_ones (take i mask)) as [x|] eqn:Hx; simpl.
      * apply lookup_lt_Some in Hx. rewrite decide_True by lia.
        by rewrite Nat.add_1_r, fmap_app.
      * apply lookup_ge_None in Hx. by rewrite decide_False by lia.
    + rewrite Nat.add_0_r. rewrite decide_True by done. by rewrite fmap_app.
  - by rewrite decide_False by lia.
Qed.

(** The loops on the column that pruning [xs] has returned: a one-entry
    row for every voxel kept, the fill value for the others. *)
Lemma expand_loop_column mask xs fill (pruned : ndarray A) i :
  length mask = length xs → i ≤ length mask →
  shape pruned = [length (data pruned); 1] →
  data pruned = select mask xs →
  for_range i (expand_step mask fill pruned) ([], 0)
  = Ok (zip_with (masked_row fill) (take i mask) (take i xs),
        length (select (take i mask) (take i xs))).
Proof.
  intros Hlen Hi Hshape Hdata. induction i as [|i IH]; [done|].
  rewrite for_range_S, IH by lia. simpl.
  destruct (getflat_lt mask i) as (m & Hm & ->); [lia|].
  destruct (lookup_lt_is_Some_2 xs i) as [x Hx]; [lia|]. simpl.
  rewrite (select_take_S mask xs i m x) by done.
  rewrite (take_S_r _ _ _ Hm), (take_S_r _ _ _ Hx).
  rewrite zip_with_app by (rewrite !length_take; lia). simpl.
  assert (masked_row fill m x
          = if (m =? 1)%Z then SubArray (NdArray [1] [x]) else Entry fill) as -> by done.
  destruct (m =? 1)%Z eqn:Hm1; simpl.
  - apply Z.eqb_eq in Hm1 as ->.
    pose proof (select_lookup mask xs i x Hlen Hm Hx) as Hsel.
    rewrite (getitem_column pruned _ x) by (done || by rewrite Hdata).
    simpl. by rewrite length_app, Nat.add_1_r.
  - by rewrite app_nil_r.
Qed.

(** The list built for a column, by the kind of mask. *)
Lemma masked_row_none mask xs fill :
  count_ones mask = 0 →
  zip_with (masked_row fill) mask xs
  = Entry <$> zip_with (masked fill) mask xs.
Proof.
  revert xs. induction mask as [|m mask IH]; intros [|x xs] Hc; try done.
  simpl in *. unfold masked_row at 1, masked at 1.
  destruct (m =? 1)%Z; [lia|]. by rewrite IH.
Qed.

Lemma masked_row_all mask xs fill :
  count_ones mask = length mask → length mask = length xs →
  zip_with (masked_row fill) mask xs = (λ x, SubArray (NdArray [1] [x])) <$> xs ∧
  zip_with (masked fill) mask xs = xs.
Proof.
  revert xs. induction mask as [|m mask IH]; intros [|x xs] Hc Hlen; try done.
  simpl in *. pose proof (count_ones_le mask).
  unfold masked_row at 1, masked at 1.
  destruct (m =? 1)%Z; [|lia].
  destruct (IH xs) as [-> ->]; [lia..|done].
Qed.

Lemma masked_row_mixed mask xs fill :
  length mask = length xs → ¬ uniform mask →
  Exists (λ it, is_entry it = true) (zip_with (masked_row fill) mask xs) ∧
  Exists (λ it, is_entry it = false) (zip_with (masked_row fill) mask xs).
Proof.
  intros Hlen (Hone & Hother)%count_ones_mixed.
  destruct Hone as (m1 & (j1 & Hj1)%list_elem_of_lookup & Hm1).
  destruct Hother as (m0 & (j0 & Hj0)%list_elem_of_lookup & Hm0).
  destruct (lookup_lt_is_Some_2 xs j1) as [x1 Hx1];
    [rewrite <-Hlen; by eapply lookup_lt_Some|].
  destruct (lookup_lt_is_Some_2 xs j0) as [x0 Hx0];
    [rewrite <-Hlen; by eapply lookup_lt_Some|].
  split; apply Exists_exists.
  - exists (masked_row fill m0 x0). split.
    + apply (list_elem_of_lookup_2 _ j0).
      by rewrite lookup_zip_with, Hj0, Hx0.
    + unfold masked_row. by rewrite Hm0.
  - exists (masked_row fill m1 x1). split.
    + apply (list_elem_of_lookup_2 _ j1).
      by rewrite lookup_zip_with, Hj1, Hx1.
    + unfold masked_row. by rewrite Hm1.
Qed.
End projector_facts.

Lemma size_triple (f : FrameOfReference.t) :
  FrameOfReference.size f = (size_x f, size_y f, size_z f).
Proof. unfold size_x, size_y, size_z. by destruct (FrameOfReference.size f) as [[??]?]. Qed.

Section roundtrip.
Context {A : Type} `{!Numpy, !RtTypes A}.

(** On a well-formed volume and mask, pruning returns the column of the
    selected entries. *)
Lemma create_pruned_vector_select (h : heap) (v : Volume A) (m : ROI) :
  let f := h !!! frameofreference v in
  on_grid (array v) f → on_grid (makeDenseMask m f) f →
  create_pruned_vector h v (Some m)
  = Ok (reshape_col (np_array (select (data (makeDenseMask m f)) (data (array v))))).
Proof.
  intros f [Hvs Hvl] [Hms Hml]. unfold create_pruned_vector. fold f.
  unfold size_x, size_y, size_z in *.
  destruct (FrameOfReference.size f) as [[sx sy] sz]. simpl in *.
  rewrite (for_range3_flat sz sy sx _
    (λ i pruned_vector,
       b ← getflat (data (makeDenseMask m f)) i;
       if (b =? 1)%Z then x ← getflat (data (array v)) i; Ok (pruned_vector ++ [x])
       else Ok pruned_vector)).
  - rewrite <-Hml, prune_flat by lia. simpl.
    by rewrite !take_ge by lia.
  - intros d r c s Hd Hr Hc.
    by rewrite (getitem3_flat _ _ _ _ _ _ _ Hms), (getitem3_flat _ _ _ _ _ _ _ Hvs).
Qed.

(** [expand_pruned_vector] on a mask laid out on the grid of the frame:
    the three loops are one loop over the flat positions, whose list
    [np.array] packs and [fromArray] lays out on the grid. *)
Lemma expand_pruned_vector_unfold (h : heap) (pruned : ndarray A) (m : ROI)
    (frame : addr) (fill : A) :
  let f := h !!! frame in
  let mask := data (makeDenseMask m f) in
  on_grid (makeDenseMask m f) f →
  expand_pruned_vector h pruned (Some m) frame fill
  = (_ ← shape0 pruned;
     st ← for_range (length mask) (expand_step mask fill pruned) ([], 0);
     expanded_vector ← np_array_items st.1;
     if length (data expanded_vector) =? length mask then
       Ok (MkVolume (NdArray [size_z f; size_y f; size_x f] (data expanded_vector))
             frame "")
     else Raise ValueError).
Proof.
  intros f mask [Hms Hml]. unfold expand_pruned_vector, fromArray. fold f.
  rewrite (size_triple f). cbv beta iota.
  rewrite (for_range3_flat (size_z f) (size_y f) (size_x f) _
             (expand_step mask fill pruned)).
  - subst mask. by rewrite Hml.
  - intros d r c [ev idx] Hd Hr Hc.
    by rewrite (getitem3_flat _ _ _ _ _ _ _ Hms).
Qed.

(** The volume that holds [xs] where the mask is 1 and the fill value
    elsewhere. *)
Lemma expand_pruned_vector_vector (h : heap) (pruned : ndarray A) (m : ROI)
    (frame : addr) (fill : A) :
  let f := h !!! frame in
  let mask := data (makeDenseMask m f) in
  on_grid (makeDenseMask m f) f →
  shape pruned = [length (data pruned)] →
  expand_pruned_vector h pruned (Some m) frame fill
  = if decide (count_ones mask ≤ length (data pruned)) then
      Ok (MkVolume (NdArray [size_z f; size_y f; size_x f]
                      (Entry <$> scatter mask (data pruned) fill)) frame "")
    else Raise IndexError.
Proof.
  intros f mask Hmask Hshape.
  rewrite expand_pruned_vector_unfold by done. fold f mask.
  unfold shape0. rewrite Hshape. simpl.
  rewrite expand_loop_vector by done. rewrite take_ge by done.
  destruct (decide _); [|done]. simpl.
  rewrite take_ge by (unfold scatter; by rewrite length_imap).
  rewrite np_array_items_entries. simpl.
  unfold scatter. by rewrite length_fmap, length_imap, Nat.eqb_refl.
Qed.

(** Putting back the entries that pruning selected. *)
Lemma scatter_select (mask : list Z) (xs : list A) fill :
  length mask = length xs →
  scatter mask (select mask xs) fill = zip_with (masked fill) mask xs.
Proof.
  intros Hlen. apply list_eq. intros i. unfold scatter.
  rewrite list_lookup_imap, lookup_zip_with.
  destruct (mask !! i) as [b|] eqn:Hb; [|done]. simpl.
  destruct (lookup_lt_is_Some_2 xs i) as [x Hx];
    [rewrite <-Hlen; by eapply lookup_lt_Some|].
  rewrite Hx. simpl. unfold masked. destruct (b =? 1)%Z eqn:Hb1; [|done].
  apply Z.eqb_eq in Hb1 as ->.
  rewrite <-(select_length (take i mask) (take i xs)) by (rewrite !length_take; lia).
  by rewrite (select_lookup mask xs i x).
Qed.

(** C1, as the code has it.  For a volume and a mask laid out on the
    volume's grid, pruning returns a column of shape (N, 1).  Its
    entries, taken as a vector of shape (N,), expand to the volume that
    holds the value of [v] where the mask is 1 and the fill value
    elsewhere: the round trip.  The column itself expands to that volume
    only when the mask keeps every voxel or none.  Under any other mask
    the list handed to [np.array] holds one-entry rows beside scalar fill
    values, and the call is what numpy makes of that ragged list: an
    error, or a volume built from its array. *)
Theorem expand_create_pruned_vector (h : heap) (v : Volume A) (m : ROI) (fill : A) :
  let f := h !!! frameofreference v in
  let mask := data (makeDenseMask m f) in
  let on_frame entries :=
    MkVolume (NdArray [size_z f; size_y f; size_x f] entries) (frameofreference v) "" in
  on_grid (array v) f → on_grid (makeDenseMask m f) f →
  ∃ pruned,
    create_pruned_vector h v (Some m) = Ok pruned ∧
    shape pruned = [count_ones mask; 1] ∧
    expand_pruned_vector h (np_array (data pruned)) (Some m) (frameofreference v) fill
    = Ok (on_frame (Entry <$> zip_with (masked fill) mask (data (array v)))) ∧
    expand_pruned_vector h pruned (Some m) (frameofreference v) fill
    = if decide (uniform mask) then
        Ok (on_frame (Entry <$> zip_with (masked fill) mask (data (array v))))
      else
        expanded_vector ←
          np_array_ragged (zip_with (masked_row fill) mask (data (array v)));
        Ok (on_frame (data expanded_vector)).
Proof.
  intros f mask on_frame Hv Hm.
  assert (length mask = length (data (array v))) as Hlen.
  { subst mask. destruct Hv as [_ ->], Hm as [_ ->]. done. }
  pose proof (select_length mask (data (array v)) Hlen) as Hcount.
  eexists. split; [by apply create_pruned_vector_select|]. fold f mask.
  split; [simpl; by rewrite Hcount|]. split.
  - (* the entries as a vector *)
    rewrite expand_pruned_vector_vector by done. fold f mask. simpl.
    rewrite decide_True by lia. by rewrite scatter_select.
  - (* the column *)
    rewrite expand_pruned_vector_unfold by done. fold f mask. simpl.
    rewrite (expand_loop_column mask (data (array v))) by (done || lia).
    rewrite !take_ge by lia. simpl.
    assert (length (zip_with (masked_row fill) mask (data (array v))) = length mask)
      as Hzip by (rewrite length_zip_with; lia).
    destruct (decide (uniform mask)) as [[Hnone|Hall]|Hmixed].
    + rewrite masked_row_none by done. rewrite np_array_items_entries. simpl.
      rewrite length_fmap, length_zip_with, <-Hlen, Nat.min_id, Nat.eqb_refl. done.
    + destruct (masked_row_all mask (data (array v)) fill Hall Hlen) as [-> ->].
      destruct (np_array_items_rows (data (array v))) as (arr & -> & Hdata). simpl.
      by rewrite Hdata, length_fmap, <-Hlen, Nat.eqb_refl.
    + destruct (masked_row_mixed mask (data (array v)) fill Hlen Hmixed)
        as [Hentry Harray].
      rewrite np_array_items_mixed by done.
      destruct (np_array_ragged _) as [arr|] eqn:Harr; simpl; [|done].
      destruct (np_array_ragged_scalars _ _ Harr) as [-> _].
      by rewrite Hzip, Nat.eqb_refl.
Qed.
End roundtrip.

(** At a two-voxel volume whose mask keeps the first voxel, under
    numpy 1.24 or later: the entries of the column go round, the column
    itself raises. *)
Lemma expand_create_pruned_vector_witness :
  ∃ pruned,
    create_pruned_vector store volume (Some first_roi) = Ok pruned ∧
    pruned = NdArray [1; 1] [7%Z] ∧
    expand_pruned_vector store (np_array (data pruned)) (Some first_roi) 0 (-1)%Z
    = Ok (MkVolume (NdArray [1; 1; 2] [Entry 7%Z; Entry (-1)%Z]) 0 "") ∧
    expand_pruned_vector store pruned (Some first_roi) 0 (-1)%Z = Raise ValueError.
Proof.
  destruct (expand_create_pruned_vector store volume first_roi (-1)%Z)
    as (pruned & Hp & Hs & Hvector & Hcolumn).
  - split; reflexivity.
  - split; reflexivity.
  - exists pruned. split; [exact Hp|].
    assert (pruned = NdArray [1; 1] [7%Z]) as Heq.
    { vm_compute in Hp. by injection Hp as <-. }
    split; [exact Heq|]. split; [exact Hvector|].
    etransitivity; [exact Hcolumn | reflexivity].
Defined.

(** The same call under a numpy that packs a ragged list into an array
    of objects: the first voxel holds the row [[7]], not the value 7. *)
Example ragged_column_as_objects :
  @expand_pruned_vector Z numpy_objects store (NdArray [1; 1] [7%Z]) (Some first_roi)
    0 (-1)%Z
  = Ok (MkVolume (NdArray [1; 1; 2] [SubArray (NdArray [1] [7%Z]); Entry (-1)%Z]) 0 "").
Proof. reflexivity. Qed.

Section size_check.
Context {A : Type} `{!RtTypes A}.

Lemma getitem3_error {B} (b : ndarray B) s0 s1 s2 d r c e :
  shape b = [s0; s1; s2] → getitem3 b d r c = Raise e → e = IndexError.
Proof.
  intros Hs. unfold getitem3. rewrite Hs.
  destruct (_ && _); [destruct (_ !! _)|]; congruence.
Qed.

Lemma getitem3_covered {B} (b : ndarray B) (f : FrameOfReference.t) d r c :
  covers_grid b f → d < size_z f → r < size_y f → c < size_x f →
  ∃ x, getitem3 b d r c = Ok x.
Proof.
  intros (s0 & s1 & s2 & Hs & Hl & H0 & H1 & H2) Hd Hr Hc.
  rewrite (getitem3_flat b s0 s1 s2) by (done || lia).
  destruct (getflat_lt (data b) ((d * s1 + r) * s2 + c)) as (x & _ & ->); [|by exists x].
  rewrite Hl. apply flat_index_lt; lia.
Qed.

Lemma on_grid_covers {B} (b : ndarray B) f : on_grid b f → covers_grid b f.
Proof. intros [Hs Hl]. exists (size_z f), (size_y f), (size_x f). auto. Qed.

(** C5, as the code has it.  [create_pruned_vector] compares no sizes.
    On a well-formed volume it returns a pruned vector whenever the dense
    mask can be indexed at every voxel of the volume's grid, also when
    the mask array is larger than the grid; when the mask array is
    shorter than a non-empty grid along some axis, the lookup raises
    [IndexError]. *)
Theorem create_pruned_vector_mask_size (h : heap) (v : Volume A) (m : ROI) :
  let f := h !!! frameofreference v in
  on_grid (array v) f →
  (covers_grid (makeDenseMask m f) f →
   ∃ pruned, create_pruned_vector h v (Some m) = Ok pruned) ∧
  (∀ s0 s1 s2,
     shape (makeDenseMask m f) = [s0; s1; s2] →
     0 < size_z f → 0 < size_y f → 0 < size_x f →
     s0 < size_z f ∨ s1 < size_y f ∨ s2 < size_x f →
     create_pruned_vector h v (Some m) = Raise IndexError).
Proof.
  intros f Hv. pose proof (on_grid_covers _ _ Hv) as Hvc.
  unfold create_pruned_vector. fold f.
  assert (FrameOfReference.size f = (size_x f, size_y f, size_z f)) as Hsize.
  { unfold size_x, size_y, size_z. by destruct (FrameOfReference.size f) as [[??]?]. }
  rewrite Hsize. set (mask := makeDenseMask m f). cbv beta iota. unfold for_range.
  split.
  - intros Hm.
    match goal with
    | |- ∃ _, for_each ?xs ?body ?s ≫= _ = _ =>
        destruct (for_each_returns xs body s) as [pruned ->]; [|by eexists]
    end.
    intros d s Hd%elem_of_seq. apply for_each_returns.
    intros r t Hr%elem_of_seq. apply for_each_returns.
    intros c u Hc%elem_of_seq.
    destruct (getitem3_covered mask f d r c) as [b ->]; [done|lia..|].
    destruct (getitem3_covered (array v) f d r c) as [x ->]; [done|lia..|].
    simpl. destruct (b =? 1)%Z; by eexists.
  - intros s0 s1 s2 Hs Hz Hy Hx Hshort.
    match goal with |- ?run ≫= _ = _ => destruct run as [pruned|e] eqn:Hrun end; simpl.
    + (* the loops cannot have returned: one voxel is outside the mask *)
      exfalso.
      assert (∃ d r c, d < size_z f ∧ r < size_y f ∧ c < size_x f ∧
                       (s0 ≤ d ∨ s1 ≤ r ∨ s2 ≤ c))
        as (d & r & c & Hd & Hr & Hc & Hout).
      { destruct Hshort as [H|[H|H]];
          [exists s0, 0, 0 | exists 0, s1, 0 | exists 0, 0, s2]; lia. }
      destruct (for_each_ok_inv _ _ _ _ d Hrun) as (t & t' & Hrun_d);
        [apply elem_of_seq; lia|].
      destruct (for_each_ok_inv _ _ _ _ r Hrun_d) as (u & u' & Hrun_r);
        [apply elem_of_seq; lia|].
      destruct (for_each_ok_inv _ _ _ _ c Hrun_r) as (w & w' & Hrun_c);
        [apply elem_of_seq; lia|].
      by rewrite (getitem3_out mask s0 s1 s2) in Hrun_c.
    + (* and whatever they raised came from an index *)
      f_equal.
      apply for_each_raises in Hrun as (d & t & Hd%elem_of_seq & Hrun).
      apply for_each_raises in Hrun as (r & u & Hr%elem_of_seq & Hrun).
      apply for_each_raises in Hrun as (c & w & Hc%elem_of_seq & Hrun).
      destruct (getitem3 mask d r c) as [b|e'] eqn:Hb; simpl in Hrun.
      * destruct (getitem3_covered (array v) f d r c) as [x Hgx]; [done|lia..|].
        rewrite Hgx in Hrun. by destruct (b =? 1)%Z.
      * injection Hrun as <-. by eapply getitem3_error.
Qed.
End size_check.

(** At a mask array of three columns on a grid of two, the claim of a
    size error fails: the call returns the pruned vector. *)
Lemma create_pruned_vector_mask_size_counterexample :
  shape (makeDenseMask wide_roi frame) ≠ [size_z frame; size_y frame; size_x frame] ∧
  create_pruned_vector store volume (Some wide_roi) = Ok (NdArray [1; 1] [9%Z]).
Proof. split; [by vm_compute | reflexivity]. Qed.

Lemma create_pruned_vector_mask_size_witness :
  (∃ pruned, create_pruned_vector store volume (Some wide_roi) = Ok pruned) ∧
  create_pruned_vector store volume (Some short_roi) = Raise IndexError.
Proof.
  split.
  - apply (create_pruned_vector_mask_size store volume wide_roi); [by split|].
    exists 1, 1, 3. vm_compute. repeat split; lia.
  - apply (proj2 (create_pruned_vector_mask_size store volume short_roi
                    ltac:(by split)) 1 1 1);
      vm_compute; (done || lia).
Defined.

(** ** Feature matrix assembler *)

Section assembler_facts.
Context {A : Type} `{!Numpy, !RtTypes A, !Sklearn A}.
Implicit Types (h : heap) (v best : Volume A) (vols : list (Volume A)).

(** The scan for the highest resolution keeps a volume below which no
    volume seen has its voxel volume. *)
Lemma highest_res_scan h (all : list (Volume A)) vols best :
  strictly_ordered (voxel_volume h <$> all) →
  best ∈ all → (∀ v, v ∈ vols → v ∈ all) →
  ∃ best',
    for_each (Some <$> vols) (λ volume '(highest_res_volume, highest_res),
      f ← getattr_frameofreference volume;
      let res := np_product (FrameOfReference.spacing (h !!! f)) in
      if np_less res highest_res then Ok (volume, res)
      else Ok (highest_res_volume, highest_res))
      (Some best, voxel_volume h best)
    = Ok (Some best', voxel_volume h best') ∧
    best' ∈ best :: vols ∧
    (best' = best ∨ np_less (voxel_volume h best') (voxel_volume h best) = true) ∧
    ∀ v, v ∈ best :: vols → np_less (voxel_volume h v) (voxel_volume h best') = false.
Proof.
  intros [Hirrefl Htrans].
  assert (∀ a, a ∈ all → np_less (voxel_volume h a) (voxel_volume h a) = false)
    as Hirr.
  { intros a Ha. apply Hirrefl. by apply list_elem_of_fmap_2. }
  assert (∀ a b c, a ∈ all → b ∈ all → c ∈ all →
            np_less (voxel_volume h a) (voxel_volume h b) = true →
            np_less (voxel_volume h b) (voxel_volume h c) = true →
            np_less (voxel_volume h a) (voxel_volume h c) = true) as Htr.
  { intros a b c Ha Hb Hc. apply Htrans; by apply list_elem_of_fmap_2. }
  clear Hirrefl Htrans.
  revert best. induction vols as [|v vols IH]; intros best Hbest Hvols; simpl.
  { exists best. split; [done|]. split; [left|]. split; [by left|].
    intros v ->%list_elem_of_singleton. by apply Hirr. }
  assert (v ∈ all) as Hv by (apply Hvols; left).
  assert (∀ w, w ∈ vols → w ∈ all) as Hrest by (intros w Hw; apply Hvols; by right).
  fold (voxel_volume h v).
  destruct (np_less (voxel_volume h v) (voxel_volume h best)) eqn:Hlt; simpl.
  - destruct (IH v Hv Hrest) as (best' & Hrun & Hin & Hbelow & Hmin). exists best'.
    assert (best' ∈ all) as Hbest'.
    { apply elem_of_cons in Hin as [->|Hin]; auto. }
    assert (np_less (voxel_volume h best') (voxel_volume h best) = true) as Hlt'.
    { destruct Hbelow as [->|Hbelow]; [done|]. by apply (Htr best' v best). }
    split; [exact Hrun|]. split; [by right|]. split; [by right|].
    intros w [->|Hw]%elem_of_cons; [|by apply Hmin].
    apply not_true_is_false. intros Hup.
    specialize (Hirr best' Hbest'). by rewrite (Htr best' best best') in Hirr.
  - destruct (IH best Hbest Hrest) as (best' & Hrun & Hin & Hbelow & Hmin).
    exists best'.
    split; [exact Hrun|]. split.
    { apply elem_of_cons in Hin as [->|Hin]; [left | right; by right]. }
    split; [done|].
    intros w [->|[->|Hw]%elem_of_cons]%elem_of_cons.
    + apply Hmin. left.
    + destruct Hbelow as [->|Hbelow]; [done|].
      apply not_true_is_false. intros Hup.
      assert (best' ∈ all) as Hbest'.
      { apply elem_of_cons in Hin as [->|Hin]; auto. }
      by rewrite (Htr v best' best) in Hlt.
    + apply Hmin. by right.
Qed.

(** With no region of interest the common frame is that of a volume
    below which no volume of the list has its voxel volume, and its
    spacing is overwritten in the store. *)
Lemma common_frameofreference_highest_res h (all : list (Volume A)) vols :
  strictly_ordered (voxel_volume h <$> all) →
  (∀ v, v ∈ vols → v ∈ all) →
  vols ≠ [] →
  ∃ best,
    best ∈ vols ∧
    (∀ v, v ∈ vols → np_less (voxel_volume h v) (voxel_volume h best) = false) ∧
    common_frameofreference (Some <$> vols) None h
    = (Ok (frameofreference best),
       set_spacing (frameofreference best) unit_spacing h).
Proof.
  intros Hord Hall. destruct vols as [|v0 vols]; [done|]. intros _.
  destruct (highest_res_scan h all vols v0 Hord) as (best & Hscan & Hin & _ & Hmin).
  { apply Hall. left. }
  { intros v Hv. apply Hall. by right. }
  exists best. split; [done|]. split; [done|].
  unfold common_frameofreference, mbind, St_bind, get_state, lift_result,
    modify_state, mret, St_ret.
  simpl.
  match goal with
  | |- context [for_each ?l ?b ?s] =>
      replace (for_each l b s) with (Ok (Some best, voxel_volume h best) : result _)
        by (symmetry; exact Hscan)
  end.
  done.
Qed.

(** What the call does after the common frame is chosen leaves the
    store as it is. *)
Lemma create_feature_matrix_store feature_volumes roi PCA h :
  (create_feature_matrix feature_volumes roi PCA h).2 =
  if length feature_volumes <=? 0 then h
  else (common_frameofreference feature_volumes roi h).2.
Proof.
  unfold create_feature_matrix. destruct (length feature_volumes <=? 0); [done|].
  unfold mbind at 1, St_bind at 1.
  destruct (common_frameofreference feature_volumes roi h) as [[f|e] h']; [|done].
  unfold mbind, St_bind, get_state, lift_result.
  by destruct (FrameOfReference.size (h' !!! f)) as [[??]?].
Qed.

(** With a region of interest the store is left as it is. *)
Lemma create_feature_matrix_roi_store feature_volumes roi PCA h :
  (create_feature_matrix feature_volumes (Some roi) PCA h).2 = h.
Proof.
  rewrite create_feature_matrix_store. by destruct (length feature_volumes <=? 0).
Qed.

(** The frame of reference returned is the common frame. *)
Lemma create_feature_matrix_frame feature_volumes roi PCA h out f h' :
  common_frameofreference feature_volumes roi h = (Ok f, h') →
  (create_feature_matrix feature_volumes roi PCA h).1 = Ok (Some out) →
  out.1.1.2 = f.
Proof.
  intros Hf. unfold create_feature_matrix.
  destruct (length feature_volumes <=? 0); [done|].
  unfold mbind at 1, St_bind at 1. rewrite Hf.
  unfold mbind at 1, St_bind at 1, get_state, lift_result.
  destruct (FrameOfReference.size (h' !!! f)) as [[sx sy] sz]. simpl.
  destruct (for_each _ _ _) as [[[cl dl] ll]|]; simpl; [|done].
  destruct (concatenate_axis1 cl); simpl; [|done].
  destruct (concatenate_axis1 dl); simpl; [|done].
  destruct PCA; [by destruct (SparsePCA_fit_transform _)|].
  by intros [= <-].
Qed.

Lemma set_spacing_lookup a s h :
  FrameOfReference.spacing (set_spacing a s h !!! a) = s ∧
  (∀ b, FrameOfReference.size (set_spacing a s h !!! b) = FrameOfReference.size (h !!! b)) ∧
  (∀ b, b ≠ a → set_spacing a s h !!! b = h !!! b).
Proof.
  unfold set_spacing. split; [by rewrite lookup_total_insert_eq|]. split.
  - intros b. destruct (decide (a = b)) as [->|Hne].
    + by rewrite lookup_total_insert_eq.
    + by rewrite lookup_total_insert_ne.
  - intros b Hne. by rewrite lookup_total_insert_ne.
Qed.
End assembler_facts.

Section assembler_claims.
Context {A : Type} `{!Numpy, !RtTypes A, !Sklearn A}.
Implicit Types (h : heap) (v best : Volume A) (vols : list (Volume A)).

(** C6, as the code has it.  With no region of interest and a non-empty
    list of volumes, [create_feature_matrix] takes as reference the
    frame of a volume of the list with the smallest voxel volume, the
    product of the spacing as [np.product] computes it and [<] compares
    it: no volume of the list has a smaller one.  It sets the spacing of
    that frame to (1, 1, 1) and returns that frame.  The order of the
    list does not matter: on every reordering the volume chosen has a
    voxel volume that is neither smaller nor larger, and it has the same
    frame when all volumes on other frames are strictly coarser. *)
Theorem create_feature_matrix_highest_resolution h vols PCA :
  vols ≠ [] →
  strictly_ordered (voxel_volume h <$> vols) →
  ∃ best,
    best ∈ vols ∧
    (∀ v, v ∈ vols → np_less (voxel_volume h v) (voxel_volume h best) = false) ∧
    (create_feature_matrix (Some <$> vols) None PCA h).2
    = set_spacing (frameofreference best) unit_spacing h ∧
    FrameOfReference.spacing
      ((create_feature_matrix (Some <$> vols) None PCA h).2 !!! frameofreference best)
    = unit_spacing ∧
    (∀ out, (create_feature_matrix (Some <$> vols) None PCA h).1 = Ok (Some out) →
            out.1.1.2 = frameofreference best) ∧
    (∀ vols', vols' ≡ₚ vols →
       ∃ best',
         best' ∈ vols' ∧
         (create_feature_matrix (Some <$> vols') None PCA h).2
         = set_spacing (frameofreference best') unit_spacing h ∧
         np_less (voxel_volume h best') (voxel_volume h best) = false ∧
         np_less (voxel_volume h best) (voxel_volume h best') = false ∧
         ((∀ v, v ∈ vols → frameofreference v ≠ frameofreference best →
                np_less (voxel_volume h best) (voxel_volume h v) = true) →
          frameofreference best' = frameofreference best)).
Proof.
  intros Hne Hord.
  assert (∀ l, (∀ v, v ∈ l → v ∈ vols) → l ≠ [] →
    ∃ best, best ∈ l ∧
      (∀ v, v ∈ l → np_less (voxel_volume h v) (voxel_volume h best) = false) ∧
      (create_feature_matrix (Some <$> l) None PCA h).2
      = set_spacing (frameofreference best) unit_spacing h ∧
      (∀ out, (create_feature_matrix (Some <$> l) None PCA h).1 = Ok (Some out) →
              out.1.1.2 = frameofreference best)) as Hsel.
  { intros l Hl Hnil.
    destruct (common_frameofreference_highest_res h vols l Hord Hl Hnil)
      as (best & Hin & Hmin & Hcommon).
    exists best. split; [done|]. split; [done|]. split.
    - rewrite create_feature_matrix_store, Hcommon, length_fmap.
      by destruct l.
    - intros out. eapply create_feature_matrix_frame. exact Hcommon. }
  destruct (Hsel vols) as (best & Hin & Hmin & Hstore & Hout); [done..|].
  exists best. split; [done|]. split; [done|]. split; [done|]. split.
  { rewrite Hstore. apply set_spacing_lookup. }
  split; [done|].
  intros vols' Hperm.
  destruct (Hsel vols') as (best' & Hin' & Hmin' & Hstore' & _).
  { intros v Hv. by rewrite <-Hperm. }
  { intros ->. apply Permutation_nil_l in Hperm. done. }
  exists best'. split; [done|]. split; [done|].
  assert (best' ∈ vols) as Hin2 by by rewrite <-Hperm.
  assert (best ∈ vols') as Hin3 by by rewrite Hperm.
  split; [auto|]. split; [auto|].
  intros Hstrict. destruct (decide (frameofreference best' = frameofreference best))
    as [|Hdiff]; [done|].
  exfalso. specialize (Hstrict best' Hin2 Hdiff).
  by rewrite (Hmin' best Hin3) in Hstrict.
Qed.


(** C10.  When a region of interest is given and every volume of a
    non-empty list is rejected (it is [None], or its conformed shape is
    not the reference shape), [create_feature_matrix] raises the
    [ValueError] of concatenating an empty list; the [None] result is
    returned for the empty list only. *)
Theorem create_feature_matrix_all_rejected h
    (feature_volumes : list (option (Volume A))) (roi : ROI) PCA :
  feature_volumes ≠ [] →
  Forall (rejected h (roi_frameofreference roi)) feature_volumes →
  create_feature_matrix feature_volumes (Some roi) PCA h = (Raise ValueError, h) ∧
  create_feature_matrix [] (Some roi) PCA h = (Ok None, h).
Proof.
  intros Hne Hrej. split; [|done].
  unfold create_feature_matrix. destruct feature_volumes as [|v0 rest]; [done|].
  set (fv := v0 :: rest) in *. simpl (length fv <=? 0).
  cbv beta iota.
  unfold common_frameofreference, mbind at 1, St_bind at 1, mret at 1, St_ret at 1.
  unfold mbind at 1, St_bind at 1, get_state.
  unfold rejected, size_x, size_y, size_z in Hrej.
  destruct (FrameOfReference.size (h !!! roi_frameofreference roi)) as [[sx sy] sz].
  simpl in Hrej. unfold lift_result. f_equal.
  assert (∀ lists,
    for_each fv (conform_feature h (roi_frameofreference roi) [sz; sy; sx] (Some roi))
      lists = Ok lists) as ->.
  { clear Hne. induction Hrej as [|vol l Hvol _ IH]; intros [[cl dl] ll]; [done|].
    simpl. destruct vol as [vol|]; simpl.
    - rewrite bool_decide_true by done. apply IH.
    - apply IH. }
  done.
Qed.
End assembler_claims.

(** Two volumes whose spacings (0.7, 0.5, 0.3) and (0.1, 0.7, 1.5) have
    the float products 0.105 and 0.10499999999999998: the second is
    chosen. *)
Lemma create_feature_matrix_highest_resolution_witness :
  ∃ best,
    best ∈ [volume; coarse_volume] ∧
    (create_feature_matrix (Some <$> [volume; coarse_volume]) None false store3).2
    = set_spacing (frameofreference best) unit_spacing store3 ∧
    frameofreference best = 1.
Proof.
  destruct (create_feature_matrix_highest_resolution store3 [volume; coarse_volume] false)
    as (best & Hin & Hmin & Hstore & _); [done| |].
  - split.
    + intros a Ha. repeat (apply elem_of_cons in Ha as [->|Ha]); [by vm_compute..|].
      by apply elem_of_nil in Ha.
    + intros a b c Ha Hb Hc.
      repeat (apply elem_of_cons in Ha as [->|Ha]);
        repeat (apply elem_of_cons in Hb as [->|Hb]);
        repeat (apply elem_of_cons in Hc as [->|Hc]);
        try (by apply elem_of_nil in Ha); try (by apply elem_of_nil in Hb);
        try (by apply elem_of_nil in Hc); by vm_compute.
  - exists best. split; [done|]. split; [done|].
    apply elem_of_cons in Hin as [->|Hin%list_elem_of_singleton].
    + exfalso. specialize (Hmin coarse_volume). revert Hmin. vm_compute.
      intros Hmin. discriminate Hmin. right. left.
    + by subst.
Defined.

(** The spacing product of the first volume is the smaller number, and
    the frame of the second is taken, in either order of the list: the
    float64 products are rounded after each multiplication, to 0.105 for
    the first and to 0.10499999999999998 for the second. *)
Lemma create_feature_matrix_highest_resolution_counterexample :
  ∃ qa qb,
    exact_voxel_volume store3 volume = Some qa ∧
    exact_voxel_volume store3 coarse_volume = Some qb ∧
    (qa < qb)%Q ∧
    frameofreference volume = 0 ∧ frameofreference coarse_volume = 1 ∧
    (create_feature_matrix (Some <$> [volume; coarse_volume]) None false store3).2
    = set_spacing 1 unit_spacing store3 ∧
    (create_feature_matrix (Some <$> [coarse_volume; volume]) None false store3).2
    = set_spacing 1 unit_spacing store3 ∧
    set_spacing 1 unit_spacing store3 ≠ set_spacing 0 unit_spacing store3.
Proof.
  eexists _, _. split; [reflexivity|]. split; [reflexivity|].
  split; [reflexivity|]. split; [reflexivity|]. split; [reflexivity|].
  split; [reflexivity|]. split; [reflexivity|].
  intros Heq. apply (f_equal (λ h, FrameOfReference.spacing (h !!! 0))) in Heq.
  vm_compute in Heq. discriminate Heq.
Qed.


Lemma create_feature_matrix_all_rejected_witness :
  create_feature_matrix [None] (Some roi) false store = (Raise ValueError, store) ∧
  create_feature_matrix [] (Some roi) false store = (Ok None, store).
Proof.
  apply (create_feature_matrix_all_rejected store [None] roi false); [done|].
  by constructor.
Defined.

(** ** Clustering engine *)

(** [x.lower()] on ASCII text. *)
Lemma str_lower_ascii `{!Unicode} (x : pystr) :
  is_ascii (str_value x) = true →
  str_lower x = match ascii_lower_string (str_value x) with
                | EmptyString => StrConst EmptyString
                | s => StrNew s
                end.
Proof. intros Hascii. unfold str_lower. by rewrite lower_ascii. Qed.

Section clustering_claims.
Context {A : Type} `{!Unicode, !Sklearn A, !Scipy A}.
Implicit Types (X : ndarray A) (x : pyobj A) (k : Z).

(** C2, as the code has it.  For a matrix [X] of N samples and [k > 1],
    with libraries that keep the contracts of their documentation:
    [cluster_kmeans] returns exactly what the fitted k-means estimator,
    built for [k] clusters, predicts for the standardised matrix, a
    vector of N labels in [0, k).  The two agglomerative strategies
    return, when they return, a pair and not a vector: the labels with
    the fitted estimator, the labels being N integers in [0, k), and the
    labels with the linkage matrix, the labels being N flat cluster
    numbers from 1 to [k]. *)
Theorem cluster_strategies_result X k eps njobs (affinity linkage metric method : pystr) :
  (1 < k)%Z →
  SklearnContract A → ScipyContract A →
  (∀ r, cluster_kmeans (PyArray X) k eps njobs = Ok r ↔
        ∃ X' km score labels,
          StandardScaler_fit_transform X = Ok X' ∧
          KMeans_fit (MkKMeansParams k 300 10 "k-means++" true eps njobs) X' = Ok km ∧
          KMeans_score km X' = Ok score ∧
          KMeans_predict km X' = Ok labels ∧
          r = VArray labels) ∧
  (∀ r, cluster_kmeans (PyArray X) k eps njobs = Ok r →
        label_vector (n_samples X) k (Ok r)) ∧
  (∀ r, cluster_hierarchical_sklearn (PyArray X) k affinity linkage = Ok r →
        ∃ labels agg,
          r = VTuple (VArray labels) (VObject agg) ∧
          labels_within (n_samples X) 0 k labels) ∧
  (∀ r, cluster_hierarchical_scipy (PyArray X) k metric method = Ok r →
        ∃ labels linkage_matrix,
          r = VTuple (VArray labels) (VObject linkage_matrix) ∧
          labels_within (n_samples X) 1 (k + 1) labels).
Proof.
  intros Hk Hsklearn Hscipy.
  assert (∀ X', StandardScaler_fit_transform X = Ok X' → n_samples X' = n_samples X)
    as Hrows.
  { intros X' HX. unfold n_samples. by rewrite (StandardScaler_shape A Hsklearn X X'). }
  assert (∀ r, cluster_kmeans (PyArray X) k eps njobs = Ok r ↔
        ∃ X' km score labels,
          StandardScaler_fit_transform X = Ok X' ∧
          KMeans_fit (MkKMeansParams k 300 10 "k-means++" true eps njobs) X' = Ok km ∧
          KMeans_score km X' = Ok score ∧
          KMeans_predict km X' = Ok labels ∧
          r = VArray labels) as Hkmeans.
  { intros r. unfold cluster_kmeans.
    rewrite (proj2 (Z.leb_gt k 1)) by done. split.
    + destruct (StandardScaler_fit_transform X) as [X'|] eqn:HX; simpl; [|done].
      destruct (KMeans_fit _ X') as [km|] eqn:Hkm; simpl; [|done].
      destruct (KMeans_score km X') as [score|] eqn:Hs; simpl; [|done].
      destruct (KMeans_predict km X') as [labels|] eqn:Hl; simpl; [|done].
      intros [= <-]. by exists X', km, score, labels.
    + intros (X' & km & score & labels & -> & Hkm & Hs & Hl & ->). simpl.
      rewrite Hkm. simpl. rewrite Hs. simpl. by rewrite Hl. }
  assert (1 ≤ k)%Z as Hk1 by lia.
  split; [exact Hkmeans|]. split; [|split].
  - intros r (X' & km & score & labels & HX & Hkm & _ & Hl & ->)%Hkmeans.
    exists labels. split; [done|]. rewrite <-(Hrows X' HX).
    exact (KMeans_labels A Hsklearn (MkKMeansParams k 300 10 "k-means++" true eps njobs)
             _ _ _ Hk1 Hkm Hl).
  - intros r. unfold cluster_hierarchical_sklearn.
    destruct (StandardScaler_fit_transform X) as [X'|] eqn:HX; simpl; [|done].
    destruct (negb (str_in (str_lower linkage) _)); [done|].
    destruct (negb (str_in (str_lower affinity) _)); [done|].
    match goal with
    | |- context [AgglomerativeClustering_fit_predict ?p X'] =>
        pose proof (AgglomerativeClustering_labels A Hsklearn p X') as Hlabels;
        destruct (AgglomerativeClustering_fit_predict p X') as [[labels agg]|];
        simpl; [|done]
    end.
    intros [= <-]. exists labels, agg. split; [done|]. rewrite <-(Hrows X' eq_refl).
    by apply (Hlabels labels agg).
  - intros r. unfold cluster_hierarchical_scipy.
    destruct (StandardScaler_fit_transform X) as [X'|] eqn:HX; simpl; [|done].
    destruct (negb (str_in (str_lower method) _)); [done|].
    destruct (negb (str_in (str_lower metric) _)); [done|].
    match goal with
    | |- context [sch_linkage X' ?me ?mt] =>
        destruct (sch_linkage X' me mt) as [lm|] eqn:Hlink; simpl; [|done]
    end.
    destruct (sch_fcluster lm k "maxclust") as [labels|] eqn:Hcut; simpl; [|done].
    intros [= <-]. exists labels, lm. split; [done|]. rewrite <-(Hrows X' eq_refl).
    exact (fcluster_labels A Hscipy _ _ _ _ _ _ Hk1 Hlink Hcut).
Qed.

(** C3, as the code has it.  On an argument that is not a numpy array
    the two agglomerative strategies raise [TypeError], and
    [cluster_kmeans] returns [None] without raising. *)
Theorem cluster_strategies_not_ndarray x k eps njobs (affinity linkage metric method : pystr) :
  isinstance_ndarray x = false →
  cluster_kmeans x k eps njobs = Ok VNone ∧
  cluster_hierarchical_sklearn x k affinity linkage = Raise TypeError ∧
  cluster_hierarchical_scipy x k metric method = Raise TypeError.
Proof. by destruct x. Qed.

(** C4, at the failing input.  With linkage "ward" and the valid
    affinity "l1" (metric "cityblock" for SciPy), the identity test
    [linkage is 'ward'] on the lower-cased string fails, so the estimator
    is built with the requested metric, not with "euclidean". *)
Theorem cluster_hierarchical_ward_keeps_metric X k :
  cluster_hierarchical_sklearn (PyArray X) k (StrConst "l1") (StrConst "ward")
  = (X' ← StandardScaler_fit_transform X;
     '(prediction, agg) ←
        AgglomerativeClustering_fit_predict (MkAgglomerativeParams k "l1" true "ward") X';
     Ok (VTuple (VArray prediction) (VObject agg))) ∧
  cluster_hierarchical_scipy (PyArray X) k (StrConst "cityblock") (StrConst "ward")
  = (X' ← StandardScaler_fit_transform X;
     linkage_matrix ← sch_linkage X' "ward" "cityblock";
     prediction ← sch_fcluster linkage_matrix k "maxclust";
     Ok (VTuple (VArray prediction) (VObject linkage_matrix))).
Proof.
  split.
  - unfold cluster_hierarchical_sklearn. rewrite !str_lower_ascii by reflexivity.
    by destruct (StandardScaler_fit_transform X).
  - unfold cluster_hierarchical_scipy. rewrite !str_lower_ascii by reflexivity.
    by destruct (StandardScaler_fit_transform X).
Qed.
End clustering_claims.

(** The stand-ins keep the contracts. *)
Lemma sklearn_contract : SklearnContract Z.
Proof.
  split.
  - by intros X X' [= <-].
  - intros params X km labels Hk _ [= <-]. unfold labels_within, np_array. simpl.
    rewrite length_replicate. split; [done|]. split; [done|].
    apply Forall_replicate. lia.
  - intros params X labels agg Hk [= <- _]. unfold labels_within, np_array. simpl.
    rewrite length_replicate. split; [done|]. split; [done|].
    apply Forall_replicate. lia.
Qed.

Lemma scipy_contract : ScipyContract Z.
Proof.
  split. intros X method metric lm t labels Ht [= <-] [= <-].
  unfold labels_within, np_array. simpl. rewrite length_fmap, length_seq.
  split; [done|]. split; [done|].
  apply Forall_fmap, Forall_forall. intros i _. simpl.
  pose proof (Z.mod_pos_bound (Z.of_nat i) t ltac:(lia)). lia.
Qed.

Lemma cluster_strategies_result_witness :
  label_vector 2 2 (cluster_kmeans (PyArray (NdArray [2; 1] [5; 6]%Z)) 2 (1 # 10000)%Q 1) ∧
  cluster_hierarchical_scipy (PyArray (NdArray [2; 1] [5; 6]%Z)) 2
    (StrConst "euclidean") (StrConst "ward")
  = Ok (VTuple (VArray (NdArray [2] [1; 2]%Z)) (VObject (2, "ward", "euclidean"))).
Proof.
  destruct (cluster_strategies_result (NdArray [2; 1] [5; 6]%Z) 2 (1 # 10000)%Q 1
              (StrConst "euclidean") (StrConst "ward")
              (StrConst "euclidean") (StrConst "ward") ltac:(done)
              sklearn_contract scipy_contract) as (_ & Hkmeans & _ & Hscipy).
  split; [by apply Hkmeans|].
  destruct (Hscipy _ eq_refl) as (labels & lm & Heq & _). reflexivity.
Defined.

(** The two agglomerative strategies return a pair, not a label vector,
    and SciPy's flat cluster numbers reach [k], here 2. *)
Lemma cluster_strategies_result_counterexample :
  ¬ label_vector 2 2
      (cluster_hierarchical_sklearn (PyArray (NdArray [2; 1] [5; 6]%Z)) 2
         (StrConst "euclidean") (StrConst "ward")) ∧
  ¬ label_vector 2 2
      (cluster_hierarchical_scipy (PyArray (NdArray [2; 1] [5; 6]%Z)) 2
         (StrConst "euclidean") (StrConst "ward")) ∧
  ∃ labels linkage_matrix,
    cluster_hierarchical_scipy (PyArray (NdArray [2; 1] [5; 6]%Z)) 2
      (StrConst "euclidean") (StrConst "ward")
    = Ok (VTuple (VArray labels) linkage_matrix) ∧
    ¬ Forall (λ l, (0 ≤ l < 2)%Z) (data labels).
Proof.
  split; [by intros (labels & [=] & _)|]. split; [by intros (labels & [=] & _)|].
  eexists _, _. split; [reflexivity|]. simpl.
  intros Hall. apply Forall_cons in Hall as [_ Hall].
  apply Forall_cons in Hall as [Hk _].
  change (1 + Z.of_nat 1 `mod` 2)%Z with 2%Z in Hk. lia.
Qed.

Lemma cluster_strategies_not_ndarray_witness :
  cluster_kmeans (PyOther "list" : pyobj Z) 5 (1 # 10000)%Q (-2) = Ok VNone ∧
  cluster_hierarchical_sklearn (PyOther "list" : pyobj Z) 5
    (StrConst "euclidean") (StrConst "ward") = Raise TypeError ∧
  cluster_hierarchical_scipy (PyOther "list" : pyobj Z) 5
    (StrConst "euclidean") (StrConst "ward") = Raise TypeError.
Proof. apply cluster_strategies_not_ndarray. reflexivity. Defined.

(** [cluster_kmeans] on [None]: no exception, the value [None]. *)
Lemma cluster_strategies_not_ndarray_counterexample :
  isinstance_ndarray (PyNone : pyobj Z) = false ∧
  cluster_kmeans (PyNone : pyobj Z) 5 (1 # 10000)%Q (-2) = Ok VNone.
Proof. split; reflexivity. Qed.

(** ** Subject work unit *)

Section work_unit_claims.
Context {A FD : Type} `{!Numpy, !RtTypes A, !Sklearn A, !FeatureDefs FD}.
Implicit Types (d : DOI A) (s : state A) (defs : list FD).

Lemma load_features_found d modality s defs vs (loaded : list (option (Volume A))) :
  Forall2 (feature_found d modality s) defs vs →
  for_each_flow defs (λ feature_def feature_volume_list,
    let trimmed_feature_def := enforceGLCMQuantizationMode feature_def modality in
    s ← get_state;
    let matches := findFiles trimmed_feature_def (getFeaturesPath d)
                     (dom (st_files s)) in
    match matches with
    | [] => mret (Return 1%Z)
    | first :: _ =>
        v ← fromPickle first;
        mret (Next (feature_volume_list ++ [Some v]))
    end) loaded s
  = (Ok (Next (loaded ++ (Some <$> vs))), s).
Proof.
  intros Hfound. revert loaded.
  induction Hfound as [|fd v defs vs (first & others & Hfind & Hfile) _ IH];
    intros loaded; simpl.
  { by rewrite app_nil_r. }
  unfold mbind at 1, St_bind at 1. unfold mbind at 1, St_bind at 1, get_state.
  rewrite Hfind. unfold mbind at 1, St_bind at 1, fromPickle. rewrite Hfile.
  unfold mret at 1, St_ret at 1.
  rewrite IH. by rewrite <-app_assoc.
Qed.



(** Clustering the features of a subject changes neither the store nor
    the files. *)
Lemma cluster_features_state (fvl : list (option (Volume A))) roi k s :
  (cluster_features fvl roi k s).2 = s.
Proof.
  destruct s as [h files dirs].
  unfold cluster_features, mbind at 1, St_bind at 1, on_heap.
  cbn [st_heap st_files st_dirs].
  pose proof (create_feature_matrix_roi_store fvl roi false h) as Hsame.
  destruct (create_feature_matrix fvl (Some roi) false h) as [r h'].
  simpl in Hsame. rewrite Hsame.
  destruct r as [[[[[pruned frame] full] labels]|]|]; [|done..].
  cbv beta iota. unfold mbind at 1, St_bind at 1, lift_result.
  match goal with
  | |- context [cluster_kmeans ?x ?n ?e ?j] =>
      destruct (cluster_kmeans x n e j) as [[|lab|?|??]|]; try done
  end.
  unfold mbind at 1, St_bind at 1, get_state. cbv beta iota.
  unfold mbind at 1, St_bind at 1.
  match goal with
  | |- context [expand_pruned_vector ?a ?b ?c ?e ?f] =>
      by destruct (expand_pruned_vector a b c e f)
  end.
Qed.

End work_unit_claims.


(** ** Batch worker *)

Section worker_claims.
Context {A FD : Type}.
Context (strftime_gmtime : Q → string).
Context (unit_of_work : doi_arg A → list FD → Z → bool → M A Z).

(** C9, as the code has it.  On a tuple of exactly three components,
    whatever the work unit does, the worker returns a result tuple: the
    subject and the formatted elapsed time, with code 2 and label
    "exception" when the unit raised, the code and its label when the
    unit returned 0, 1, 10 or 11, and code -1 with label "unknown" for
    any other return value; the unit is called with [recluster] true.
    On a longer tuple the call itself is a [TypeError], caught like any
    exception: code 2.  On a tuple of fewer than three components the
    worker does not return: the error of the unpacking is caught, but
    the [return] statement reads the name [doi], which was never bound,
    and raises [UnboundLocalError]. *)
Theorem worker_DOICluster_result (args_tuple : worker_args A FD)
    (time_start time_end : Q) (s : state A) :
  let run :=
    worker_DOICluster strftime_gmtime unit_of_work args_tuple time_start time_end s in
  let job_time_string := strftime_gmtime (time_end - time_start)%Q in
  match args_tuple with
  | Args3 doi local_feature_def nclusters [] =>
      let call := unit_of_work doi local_feature_def nclusters true s in
      ∃ result_code result_string,
        run = (Ok (result_code, result_string, job_time_string, doi), call.2) ∧
        (∀ e, call.1 = Raise e → result_code = 2%Z ∧ result_string = "exception") ∧
        (call.1 = Ok 0%Z → result_code = 0%Z ∧ result_string = "success") ∧
        (call.1 = Ok 1%Z → result_code = 1%Z ∧ result_string = "missing data") ∧
        (call.1 = Ok 10%Z → result_code = 10%Z ∧ result_string = "skipped") ∧
        (call.1 = Ok 11%Z → result_code = 11%Z ∧ result_string = "recalc") ∧
        (∀ c, call.1 = Ok c → c ≠ 0%Z → c ≠ 1%Z → c ≠ 10%Z → c ≠ 11%Z →
              result_code = (-1)%Z ∧ result_string = "unknown")
  | Args3 doi local_feature_def nclusters (_ :: _) =>
      run = (Ok (2%Z, "exception", job_time_string, doi), s)
  | _ => run = (Raise UnboundLocalError, s)
  end.
Proof.
  destruct args_tuple as [|subject|subject defs|subject defs k [|extra more]]; try done.
  simpl. unfold worker_DOICluster.
  destruct (unit_of_work subject defs k true s) as [[c|e] s']; simpl.
  - exists (result_strings c).1, (result_strings c).2.
    split; [by destruct (result_strings c)|].
    split; [done|].
    do 4 (split; [by intros [= ->]|]).
    intros c' [= <-] H0 H1 H10 H11. unfold result_strings.
    by rewrite (proj2 (Z.eqb_neq c 0)), (proj2 (Z.eqb_neq c 1)),
               (proj2 (Z.eqb_neq c 10)), (proj2 (Z.eqb_neq c 11)).
  - exists 2%Z, "exception". repeat split; done.
Qed.
End worker_claims.

(** The worker on the stand-in subject: a normal run, a run whose work
    unit raises, a tuple with a fourth component, and a tuple of two. *)
Example worker_DOICluster_success :
  (worker_DOICluster strftime_gmtime DOICluster
     (Args3 (OneDOI subject) feature_defs 2%Z []) 0 1 loaded_state).1
  = Ok (0%Z, "success", "00:00:00", OneDOI subject).
Proof. vm_compute. reflexivity. Qed.

Example worker_DOICluster_exception :
  (worker_DOICluster strftime_gmtime DOICluster
     (Args3 (OneDOI subject) feature_defs 1%Z []) 0 1 loaded_state).1
  = Ok (2%Z, "exception", "00:00:00", OneDOI subject).
Proof. vm_compute. reflexivity. Qed.

Example worker_DOICluster_fourth_component :
  worker_DOICluster strftime_gmtime DOICluster
    (Args3 (OneDOI subject) feature_defs 2%Z [PyOther "bool"]) 0 1 loaded_state
  = (Ok (2%Z, "exception", "00:00:00", OneDOI subject), loaded_state).
Proof. reflexivity. Qed.

Example worker_DOICluster_two_components :
  worker_DOICluster strftime_gmtime DOICluster
    (Args2 (OneDOI subject) feature_defs) 0 1 loaded_state
  = (Raise UnboundLocalError, loaded_state).
Proof. reflexivity. Qed.

(** * Further properties *)

(** ** Mask projector: sizes, order and partial vectors *)

Section projector_more.
Context {A : Type}.
Implicit Types (mask : list Z) (xs ps : list A).

Lemma select_sublist mask xs : select mask xs `sublist_of` xs.
Proof.
  revert xs. induction mask as [|m mask IH]; intros [|x xs]; simpl;
    try apply sublist_nil_l.
  destruct (m =? 1)%Z; [by apply sublist_skip | by apply sublist_cons].
Qed.

End projector_more.

Section projector_claims_more.
Context {A : Type} `{!Numpy, !RtTypes A}.

(** X1.  On a volume and a mask laid out on the volume's grid, the
    pruned vector is a column of shape (N, 1) where N is the number of
    mask entries equal to 1, and its entries are the kept voxel values in
    the (z, y, x) order of the volume: a subsequence of the volume's
    entries. *)
Theorem create_pruned_vector_column (h : heap) (v : Volume A) (m : ROI) :
  let f := h !!! frameofreference v in
  on_grid (array v) f → on_grid (makeDenseMask m f) f →
  ∃ pruned,
    create_pruned_vector h v (Some m) = Ok pruned ∧
    shape pruned = [count_ones (data (makeDenseMask m f)); 1] ∧
    length (data pruned) = count_ones (data (makeDenseMask m f)) ∧
    data pruned `sublist_of` data (array v).
Proof.
  intros f Hv Hm. eexists. split; [by apply create_pruned_vector_select|].
  fold f. simpl.
  assert (length (select (data (makeDenseMask m f)) (data (array v)))
          = count_ones (data (makeDenseMask m f))) as Hlen.
  { apply select_length. destruct Hv as [_ ->], Hm as [_ ->]. done. }
  rewrite Hlen. split; [done|]. split; [done|]. apply select_sublist.
Qed.

(** X2.  Expansion needs only as many entries as the mask has ones: on a
    vector of shape (N,) with at least that many entries it returns a
    volume of the frame's (z, y, x) shape on the given frame; the voxel
    at flat position [i] holds the fill value where the mask is not 1,
    and the entry of the vector numbered by the ones before [i] where it
    is 1.  Entries beyond the number of ones are never read. *)
Theorem expand_pruned_vector_scatter (h : heap) (pruned : ndarray A) (m : ROI)
    (frame : addr) (fill : A) :
  let f := h !!! frame in
  on_grid (makeDenseMask m f) f →
  shape pruned = [length (data pruned)] →
  count_ones (data (makeDenseMask m f)) ≤ length (data pruned) →
  ∃ expanded,
    expand_pruned_vector h pruned (Some m) frame fill = Ok expanded ∧
    frameofreference expanded = frame ∧
    shape (array expanded) = [size_z f; size_y f; size_x f] ∧
    length (data (array expanded)) = length (data (makeDenseMask m f)) ∧
    ∀ i b, data (makeDenseMask m f) !! i = Some b →
      data (array expanded) !! i
      = if (b =? 1)%Z
        then Entry <$> data pruned !! count_ones (take i (data (makeDenseMask m f)))
        else Some (Entry fill).
Proof.
  intros f Hmask Hshape Hcount.
  rewrite expand_pruned_vector_vector by done. fold f.
  rewrite decide_True by done. eexists. split; [done|]. simpl.
  split; [done|]. split; [done|].
  split; [unfold scatter; by rewrite length_fmap, length_imap|].
  intros i b Hb. unfold scatter. rewrite list_lookup_fmap, list_lookup_imap, Hb. simpl.
  destruct (b =? 1)%Z eqn:Hb1; [|done].
  destruct (lookup_lt_is_Some_2 (data pruned)
              (count_ones (take i (data (makeDenseMask m f))))) as [x ->]; [|done].
  apply Z.eqb_eq in Hb1 as ->.
  pose proof (count_ones_take_S _ _ _ Hb) as HS. simpl in HS.
  pose proof (count_ones_take_le (data (makeDenseMask m f)) (Datatypes.S i)). lia.
Qed.

(** X3.  On a vector with fewer entries than the mask has ones,
    expansion raises [IndexError]. *)
Theorem expand_pruned_vector_short (h : heap) (pruned : ndarray A) (m : ROI)
    (frame : addr) (fill : A) :
  let f := h !!! frame in
  on_grid (makeDenseMask m f) f →
  (shape pruned = [length (data pruned)] ∨ shape pruned = [length (data pruned); 1]) →
  length (data pruned) < count_ones (data (makeDenseMask m f)) →
  expand_pruned_vector h pruned (Some m) frame fill = Raise IndexError.
Proof.
  intros f Hmask Hshape Hcount.
  rewrite expand_pruned_vector_unfold by done. fold f.
  assert (shape0 pruned = Ok (length (data pruned)) ∧
          hd 0 (shape pruned) = length (data pruned)) as [-> Hrows].
  { unfold shape0. by destruct Hshape as [-> | ->]. }
  simpl.
  destruct (for_range _ _ _) as [[ev idx]|e] eqn:Hrun; simpl.
  - apply expand_loop_inv in Hrun as (_ & Hidx & Hle & _); [|done].
    rewrite take_ge in Hidx by done. lia.
  - f_equal. by eapply expand_loop_error.
Qed.
End projector_claims_more.

Lemma create_pruned_vector_column_witness :
  ∃ pruned,
    create_pruned_vector store volume (Some roi) = Ok pruned ∧
    shape pruned = [1; 1] ∧ data pruned = [9%Z].
Proof.
  destruct (create_pruned_vector_column store volume roi)
    as (pruned & Hp & Hs & _); [by split | by split |].
  exists pruned. split; [done|]. split; [exact Hs|].
  vm_compute in Hp. by injection Hp as <-.
Defined.

(** A vector with a surplus entry expands like the vector without it. *)
Lemma expand_pruned_vector_scatter_witness :
  ∃ expanded,
    expand_pruned_vector store (np_array [5; 6]%Z) (Some roi) 0 (-1)%Z = Ok expanded ∧
    data (array expanded) = [Entry (-1)%Z; Entry 5%Z].
Proof.
  destruct (expand_pruned_vector_scatter store (np_array [5; 6]%Z) roi 0 (-1)%Z)
    as (expanded & He & _); [by split | done | vm_compute; lia |].
  exists expanded. split; [done|].
  vm_compute in He. by injection He as <-.
Defined.

Lemma expand_pruned_vector_short_witness :
  expand_pruned_vector store (np_array ([] : list Z)) (Some roi) 0 (-1)%Z
  = Raise IndexError.
Proof.
  apply (expand_pruned_vector_short store (np_array []) roi 0 (-1)%Z);
    [by split | by left | vm_compute; lia].
Defined.

(** ** Feature matrix assembler: dropped volumes, missing volumes, PCA *)

Section assembler_more.
Context {A : Type} `{!Numpy, !RtTypes A, !Sklearn A}.
Implicit Types (h : heap) (feature_volumes : list (option (Volume A))).

(** A rejected volume leaves the lists of the loop as they are. *)
Lemma conform_feature_rejected h f roi vol lists :
  rejected h f vol →
  conform_feature h f [size_z (h !!! f); size_y (h !!! f); size_x (h !!! f)] roi vol lists
  = Ok lists.
Proof.
  intros Hrej. unfold conform_feature. destruct lists as [[cl dl] ll].
  destruct vol as [v|]; [|done]. simpl in *. by rewrite bool_decide_true.
Qed.

Lemma conform_loop_filter h f roi feature_volumes lists :
  for_each feature_volumes
    (conform_feature h f [size_z (h !!! f); size_y (h !!! f); size_x (h !!! f)] roi) lists
  = for_each (filter (λ vol, ¬ rejected h f vol) feature_volumes)
      (conform_feature h f [size_z (h !!! f); size_y (h !!! f); size_x (h !!! f)] roi)
      lists.
Proof.
  revert lists. induction feature_volumes as [|vol fv IH]; intros lists; [done|].
  destruct (decide (rejected h f vol)) as [Hrej|Hacc].
  - rewrite filter_cons_False by tauto. simpl.
    rewrite conform_feature_rejected by done. apply IH.
  - rewrite filter_cons_True by done. simpl.
    destruct (conform_feature _ _ _ _ _ _); simpl; [apply IH | done].
Qed.

(** The call is the choice of the common frame followed by the loop and
    the concatenations, which only read the store. *)
Lemma create_feature_matrix_unfold h feature_volumes roi PCA :
  create_feature_matrix feature_volumes roi PCA h
  = if length feature_volumes <=? 0 then (Ok None, h)
    else
      match common_frameofreference feature_volumes roi h with
      | (Ok f, h') =>
          ('(conformed_feature_list, dense_feature_list, feature_column_labels) ←
             for_each feature_volumes
               (conform_feature h' f
                  [size_z (h' !!! f); size_y (h' !!! f); size_x (h' !!! f)] roi)
               ([], [], []);
           pruned_feature_array ←
             np_nan_to_num <$> concatenate_axis1 conformed_feature_list;
           dense_feature_array ← np_nan_to_num <$> concatenate_axis1 dense_feature_list;
           pruned_feature_array ←
             (if PCA then
                transformed ← SparsePCA_fit_transform pruned_feature_array;
                format_integer SparsePCA_n_components;;
                Ok transformed
              else Ok pruned_feature_array);
           Ok (Some (pruned_feature_array, f, dense_feature_array,
                     feature_column_labels)),
           h')
      | (Raise e, h') => (Raise e, h')
      end.
Proof.
  unfold create_feature_matrix. destruct (length feature_volumes <=? 0); [done|].
  unfold mbind at 1, St_bind at 1.
  destruct (common_frameofreference feature_volumes roi h) as [[f|e] h']; [|done].
  unfold mbind at 1, St_bind at 1, get_state. cbv beta iota.
  rewrite size_triple. reflexivity.
Qed.

(** With a region of interest the common frame is the region's. *)
Lemma create_feature_matrix_roi_unfold h feature_volumes roi PCA :
  feature_volumes ≠ [] →
  create_feature_matrix feature_volumes (Some roi) PCA h
  = (let f := roi_frameofreference roi in
     '(conformed_feature_list, dense_feature_list, feature_column_labels) ←
       for_each feature_volumes
         (conform_feature h f [size_z (h !!! f); size_y (h !!! f); size_x (h !!! f)]
            (Some roi)) ([], [], []);
     pruned_feature_array ← np_nan_to_num <$> concatenate_axis1 conformed_feature_list;
     dense_feature_array ← np_nan_to_num <$> concatenate_axis1 dense_feature_list;
     pruned_feature_array ←
       (if PCA then
          transformed ← SparsePCA_fit_transform pruned_feature_array;
          format_integer SparsePCA_n_components;;
          Ok transformed
        else Ok pruned_feature_array);
     Ok (Some (pruned_feature_array, f, dense_feature_array, feature_column_labels)),
     h).
Proof.
  intros Hne. rewrite create_feature_matrix_unfold.
  by destruct feature_volumes.
Qed.

(** X4.  Drop and continue: with a region of interest, the volumes that
    the loop rejects ([None] entries and volumes whose conformed shape
    is not the reference shape) have no effect on the result, as long
    as one volume is kept. *)
Theorem create_feature_matrix_drops_rejected h feature_volumes (roi : ROI) PCA :
  let kept :=
    filter (λ vol, ¬ rejected h (roi_frameofreference roi) vol) feature_volumes in
  kept ≠ [] →
  create_feature_matrix feature_volumes (Some roi) PCA h
  = create_feature_matrix kept (Some roi) PCA h.
Proof.
  intros kept Hkept.
  assert (feature_volumes ≠ []) as Hne by (intros ->; done).
  rewrite !create_feature_matrix_roi_unfold by done. cbv zeta.
  by rewrite conform_loop_filter.
Qed.

(** X5.  With no region of interest a [None] entry is not dropped: the
    scan for the highest resolution reads its frame of reference, and
    the call raises [AttributeError] before any frame is modified. *)
Theorem create_feature_matrix_none_entry h feature_volumes PCA :
  None ∈ feature_volumes →
  create_feature_matrix feature_volumes None PCA h = (Raise AttributeError, h).
Proof.
  intros Hin. unfold create_feature_matrix.
  destruct feature_volumes as [|v0 rest]; [by inversion Hin|].
  simpl (length _ <=? 0). cbv iota.
  unfold mbind at 1, St_bind at 1.
  assert (common_frameofreference (v0 :: rest) None h = (Raise AttributeError, h))
    as ->; [|done].
  unfold common_frameofreference, mbind, St_bind, get_state, lift_result.
  simpl. destruct v0 as [v0|]; simpl; [|done].
  apply elem_of_cons in Hin as [?|Hin]; [done|]. rewrite drop_0.
  assert (∀ start,
    for_each rest (λ volume '(highest_res_volume, highest_res),
      f ← getattr_frameofreference volume;
      let res := np_product (FrameOfReference.spacing (h !!! f)) in
      if np_less res highest_res then Ok (volume, res)
      else Ok (highest_res_volume, highest_res)) start = Raise AttributeError) as Hscan.
  { clear v0. induction rest as [|[w|] rest IH]; intros [b r].
    - by inversion Hin.
    - simpl. apply elem_of_cons in Hin as [?|Hin]; [done|].
      destruct (np_less _ r); simpl; by apply IH.
    - done. }
  match goal with
  | |- context [for_each ?l ?b ?s] =>
      replace (for_each l b s)
        with (Raise AttributeError : result (option (Volume A) * np_scalar))
        by (symmetry; apply Hscan)
  end.
  done.
Qed.

(** X6.  A call with [PCA] returns no feature matrix.  Up to the
    transform it does what the call without [PCA] does, with the same
    effect on the store; when the transform returns, the debug message
    formats [pca.n_components], which is [None], as an integer, and the
    call raises [TypeError]. *)
Theorem create_feature_matrix_PCA h feature_volumes (roi : option ROI) :
  (create_feature_matrix feature_volumes roi true h).2
  = (create_feature_matrix feature_volumes roi false h).2 ∧
  (create_feature_matrix feature_volumes roi true h).1
  = (r ← (create_feature_matrix feature_volumes roi false h).1;
     match r with
     | None => Ok None
     | Some (pruned_feature_array, frameofreference, dense_feature_array, labels) =>
         SparsePCA_fit_transform pruned_feature_array;;
         Raise TypeError
     end) ∧
  ∀ out, (create_feature_matrix feature_volumes roi true h).1 ≠ Ok (Some out).
Proof.
  split; [by rewrite !create_feature_matrix_store|].
  rewrite !create_feature_matrix_unfold.
  destruct (length feature_volumes <=? 0); [done|].
  destruct (common_frameofreference feature_volumes roi h) as [[f|e] h']; [|done].
  simpl.
  destruct (for_each _ _ _) as [[[cl dl] ll]|]; simpl; [|done].
  destruct (concatenate_axis1 cl); simpl; [|done].
  destruct (concatenate_axis1 dl); simpl; [|done].
  by destruct (SparsePCA_fit_transform _).
Qed.
End assembler_more.

Lemma create_feature_matrix_drops_rejected_witness :
  create_feature_matrix [None; Some volume; None] (Some roi) false store
  = create_feature_matrix [Some volume] (Some roi) false store.
Proof.
  assert (filter (λ vol, ¬ rejected store (roi_frameofreference roi) vol)
            [None; Some volume; None] = [Some volume]) as Hkept by reflexivity.
  rewrite <-Hkept.
  apply (create_feature_matrix_drops_rejected store [None; Some volume; None] roi false).
  by rewrite Hkept.
Defined.

Lemma create_feature_matrix_none_entry_witness :
  create_feature_matrix [Some volume; None] None false store = (Raise AttributeError, store).
Proof.
  apply (create_feature_matrix_none_entry store [Some volume; None] false).
  right. left.
Defined.

(** ** Feature matrix assembler: the columns of the pruned matrix *)

Section columns.
Context {A : Type}.
Implicit Types (cols : list (list A)) (c row : list A).

Lemma chunks_one n c : length c = n → chunks 1 n c = (λ x, [x]) <$> c.
Proof.
  revert c. induction n as [|n IH]; intros [|x c] Hlen; simplify_eq/=; [done|].
  rewrite drop_0. by rewrite IH.
Qed.

(** Row [i] of the columns joined side by side holds entry [i] of each
    column, in the order of the columns. *)
Lemma joined_lookup cols n i :
  Forall (λ c, length c = n) cols → i < n →
  ∃ row,
    foldr (λ a acc, zip_with app (rows a) acc) (replicate n [])
      ((λ c, NdArray [n; 1] c) <$> cols) !! i = Some row ∧
    length row = length cols ∧
    ∀ j c, cols !! j = Some c → row !! j = c !! i.
Proof.
  intros Hcols Hi. induction Hcols as [|c cols Hc _ (row & Hrow & Hlen & Hent)].
  { exists []. split; [by apply lookup_replicate_2|]. split; [done|]. by intros j c. }
  destruct (lookup_lt_is_Some_2 c i) as [x Hx]; [lia|].
  exists (x :: row). split; [|split].
  - rewrite fmap_cons. cbn [foldr]. rewrite lookup_zip_with, Hrow.
    unfold rows. cbn [shape data]. rewrite chunks_one by done.
    by rewrite list_lookup_fmap, Hx.
  - simpl. by rewrite Hlen.
  - intros [|j] c'; simpl; [by intros [= <-] | apply Hent].
Qed.

Lemma joined_length cols n :
  Forall (λ c, length c = n) cols →
  length (foldr (λ a acc, zip_with app (rows a) acc) (replicate n [])
            ((λ c, NdArray [n; 1] c) <$> cols)) = n.
Proof.
  induction 1 as [|c cols Hc _ IH]; [apply length_replicate|].
  rewrite fmap_cons. cbn [foldr]. rewrite length_zip_with, IH.
  unfold rows. cbn [shape data]. rewrite chunks_one by done.
  rewrite length_fmap. lia.
Qed.

Lemma concat_lookup_uniform (rs : list (list A)) D i j row :
  Forall (λ r, length r = D) rs → rs !! i = Some row → j < D →
  concat rs !! (i * D + j) = row !! j.
Proof.
  intros Hrs. revert i. induction Hrs as [|r rs Hr _ IH]; intros i Hrow Hj; [done|].
  destruct i as [|i]; simpl in *.
  - injection Hrow as ->. by rewrite lookup_app_l by lia.
  - rewrite lookup_app_r by lia.
    replace (D + i * D + j - length r) with (i * D + j) by lia. by apply IH.
Qed.

(** [np.concatenate] of columns of equal height: entry [i] of column
    [j] lands in row [i], column [j]. *)
Lemma concatenate_axis1_columns cols n :
  cols ≠ [] → Forall (λ c, length c = n) cols →
  ∃ M,
    concatenate_axis1 ((λ c, NdArray [n; 1] c) <$> cols) = Ok M ∧
    shape M = [n; length cols] ∧
    ∀ i j c, cols !! j = Some c → i < n → data M !! (i * length cols + j) = c !! i.
Proof.
  intros Hne Hcols. unfold concatenate_axis1.
  destruct cols as [|c0 cols']; [done|]. set (cols := c0 :: cols') in *.
  change ((λ c, NdArray [n; 1] c) <$> cols)
    with (NdArray [n; 1] c0 :: ((λ c, NdArray [n; 1] c) <$> cols')) at 1.
  cbn [shape].
  assert (forallb (same_row_count n) ((λ c, NdArray [n; 1] c) <$> cols) = true) as ->.
  { apply forallb_forall. intros a [c [<- _]]%in_map_iff.
    unfold same_row_count. simpl. apply Nat.eqb_refl. }
  assert (sum_list ((λ a, nth 1 (shape a) 0) <$> ((λ c, NdArray [n; 1] c) <$> cols))
          = length cols) as ->.
  { clear. induction cols as [|c cols IH]; simpl; [done | f_equal; exact IH]. }
  eexists. split; [done|]. split; [done|].
  intros i j c Hc Hi. cbn [data].
  destruct (joined_lookup cols n i Hcols Hi) as (row & Hrow & Hlen & Hent).
  rewrite (concat_lookup_uniform _ (length cols) i j row).
  - by apply Hent.
  - apply Forall_lookup. intros i' r Hr.
    assert (i' < n) as Hi'.
    { apply lookup_lt_Some in Hr. by rewrite joined_length in Hr. }
    destruct (joined_lookup cols n i' Hcols Hi') as (row' & Hrow' & Hlen' & _).
    congruence.
  - done.
  - by apply lookup_lt_Some in Hc.
Qed.
End columns.

Section assembler_columns.
Context {A : Type} `{!Numpy, !RtTypes A, !Sklearn A}.
Implicit Types (h : heap) (feature_volumes : list (option (Volume A))).

(** The loop, on a well-formed mask and well-formed conformed arrays:
    every kept volume adds its pruned column, its dense column and its
    label. *)
Lemma conform_loop_accepted h (roi : ROI) feature_volumes lists :
  let f := roi_frameofreference roi in
  let mask := makeDenseMask roi (h !!! f) in
  on_grid mask (h !!! f) →
  (∀ v, v ∈ accepted h f feature_volumes → well_formed (array v)) →
  for_each feature_volumes
    (conform_feature h f [size_z (h !!! f); size_y (h !!! f); size_x (h !!! f)]
       (Some roi)) lists
  = Ok (lists.1.1
          ++ ((λ v, reshape_col (np_array (select (data mask) (data (array v)))))
                <$> accepted h f feature_volumes),
        lists.1.2
          ++ ((λ v, reshape_col (vectorize v (Some roi))) <$> accepted h f feature_volumes),
        lists.2 ++ (generate_heatmap_label <$> accepted h f feature_volumes)).
Proof.
  intros f mask Hmask. revert lists.
  induction feature_volumes as [|vol fv IH]; intros [[cl dl] ll] Hwf; simpl.
  { by rewrite !app_nil_r. }
  destruct vol as [v|]; simpl.
  2:{ apply IH. intros w Hw. apply Hwf. done. }
  unfold accepted in *. simpl in *.
  destruct (decide (shape (conformTo v (h !!! f))
                    ≠ [size_z (h !!! f); size_y (h !!! f); size_x (h !!! f)]))
    as [Hrej|Hacc]; simpl in *.
  { rewrite bool_decide_true by done. by apply IH. }
  apply dec_stable in Hacc.
  rewrite bool_decide_false by (intros Hne; by apply Hne).
  set (cv := MkVolume (conformTo v (h !!! f)) f (modality v)) in *.
  rewrite (create_pruned_vector_select h cv roi).
  - simpl. rewrite IH by (intros w Hw; apply Hwf; by right). simpl.
    by rewrite <-!app_assoc.
  - split; [exact Hacc|]. pose proof (Hwf cv ltac:(left)) as Hlen.
    unfold well_formed in Hlen. simpl in Hlen. rewrite Hacc in Hlen. simpl in Hlen.
    change (length (data (conformTo v (h !!! f)))
            = size_z (h !!! f) * size_y (h !!! f) * size_x (h !!! f)).
    rewrite Hlen. lia.
  - exact Hmask.
Qed.

(** X7.  With a region of interest whose mask lies on the reference
    grid, and conformed arrays that have as many entries as their shape
    says, a call without PCA that returns gives: the region's frame; one
    label per kept volume, in order; a pruned matrix with one row per
    mask entry equal to 1 and one column per kept volume, whose entry in
    row [i], column [j] is the [nan_to_num] of the [i]-th kept voxel of
    the [j]-th kept volume. *)
Theorem create_feature_matrix_columns h feature_volumes (roi : ROI)
    (out : feature_matrix A) :
  let f := roi_frameofreference roi in
  let mask := data (makeDenseMask roi (h !!! f)) in
  let kept := accepted h f feature_volumes in
  on_grid (makeDenseMask roi (h !!! f)) (h !!! f) →
  (∀ v, v ∈ kept → well_formed (array v)) →
  (create_feature_matrix feature_volumes (Some roi) false h).1 = Ok (Some out) →
  out.1.1.2 = f ∧
  out.2 = generate_heatmap_label <$> kept ∧
  shape out.1.1.1 = [count_ones mask; length kept] ∧
  ∀ i j v, kept !! j = Some v → i < count_ones mask →
    data out.1.1.1 !! (i * length kept + j)
    = nan_to_num <$> select mask (data (array v)) !! i.
Proof.
  intros f mask kept Hmask Hwf.
  destruct (decide (feature_volumes = [])) as [Hnil|Hne].
  { subst feature_volumes. intros Hrun. by vm_compute in Hrun. }
  rewrite create_feature_matrix_roi_unfold by done.
  cbv zeta. fold f.
  rewrite (conform_loop_accepted h roi feature_volumes) by (exact Hmask || exact Hwf).
  fold f kept mask. simpl.
  assert (∀ v, v ∈ kept → length (select mask (data (array v))) = count_ones mask)
    as Hheight.
  { intros v Hv. apply select_length.
    assert (shape (array v)
            = [size_z (h !!! f); size_y (h !!! f); size_x (h !!! f)]) as Hshape.
    { unfold kept, accepted in Hv. apply list_elem_of_omap in Hv as (vol & _ & Hvol).
      destruct vol as [w|]; [|done]. destruct (decide _) as [|Hacc]; [done|].
      injection Hvol as <-. simpl in *. by apply dec_stable in Hacc. }
    pose proof (Hwf v Hv) as Hlen. unfold well_formed in Hlen.
    rewrite Hshape in Hlen. simpl in Hlen.
    destruct Hmask as [_ Hml]. fold mask in Hml. rewrite Hml, Hlen. lia. }
  assert ((λ v, reshape_col (np_array (select mask (data (array v))))) <$> kept
          = (λ c, NdArray [count_ones mask; 1] c)
              <$> ((λ v, select mask (data (array v))) <$> kept)) as ->.
  { rewrite <-list_fmap_compose. apply list_fmap_ext.
    intros j v Hv. unfold reshape_col, np_array. simpl.
    by rewrite (Hheight v) by (by eapply list_elem_of_lookup_2). }
  destruct kept as [|k0 kept'] eqn:Hkept; [done|]. rewrite <-Hkept in *.
  destruct (concatenate_axis1_columns ((λ v, select mask (data (array v))) <$> kept)
              (count_ones mask)) as (M & -> & HMs & HMe).
  { by rewrite Hkept. }
  { apply Forall_fmap, Forall_forall. intros v Hv. by apply Hheight. }
  rewrite length_fmap in HMs, HMe. simpl.
  destruct (concatenate_axis1 _) as [D|]; simpl; [|done].
  intros [= <-]. simpl. split; [done|]. split; [done|]. split; [done|].
  intros i j v Hv Hi. rewrite list_lookup_fmap.
  by rewrite (HMe i j (select mask (data (array v))))
    by (by rewrite ?list_lookup_fmap, ?Hv).
Qed.
End assembler_columns.

Lemma create_feature_matrix_columns_witness :
  ∃ out,
    (create_feature_matrix [Some volume; None; Some coarse_volume] (Some roi) false
       store2).1 = Ok (Some out) ∧
    shape out.1.1.1 = [1; 2] ∧ out.2 = ["CT"; "PET"].
Proof.
  eexists. split; [vm_compute; reflexivity|].
  destruct (create_feature_matrix_columns store2
              [Some volume; None; Some coarse_volume] roi
              (NdArray [1; 2] [9; 4]%Z, 0, NdArray [2; 2] [7; 3; 9; 4]%Z, ["CT"; "PET"]))
    as (_ & Hl & Hs & _).
  - by split.
  - intros v Hv. vm_compute in Hv.
    apply elem_of_cons in Hv as [->|Hv]; [by vm_compute|].
    apply list_elem_of_singleton in Hv as ->. by vm_compute.
  - vm_compute. reflexivity.
  - split; [exact Hs | exact Hl].
Defined.

(** ** Clustering engine: parameter checks *)

Lemma str_lower_value `{!Unicode} (x : pystr) :
  str_value (str_lower x) = lower (str_value x).
Proof. unfold str_lower. by destruct (lower (str_value x)). Qed.

(** A lower-cased string is never the object of a non-empty constant. *)
Lemma str_lower_is_constant `{!Unicode} (x : pystr) (literal : string) :
  literal ≠ "" → is_constant (str_lower x) literal = false.
Proof.
  intros Hne. unfold str_lower. destruct (lower (str_value x)); simpl; [|done].
  by apply bool_decide_eq_false_2.
Qed.

Section clustering_more.
Context {A : Type} `{!Unicode, !Sklearn A, !Scipy A}.
Implicit Types (X : ndarray A) (x : pyobj A) (k : Z).

(** X8.  On a numpy array [cluster_kmeans] raises [ValueError] for every
    cluster count of 1 or less, before the matrix is standardised or any
    estimator is built. *)
Theorem cluster_kmeans_domain X k eps njobs :
  (k ≤ 1)%Z → cluster_kmeans (PyArray X) k eps njobs = Raise ValueError.
Proof. intros Hk. unfold cluster_kmeans. by rewrite (proj2 (Z.leb_le k 1)). Qed.

(** [cluster_hierarchical_sklearn] on a numpy array, with the identity
    tests resolved. *)
Lemma cluster_hierarchical_sklearn_checked X k (affinity linkage : pystr) :
  cluster_hierarchical_sklearn (PyArray X) k affinity linkage
  = (X' ← StandardScaler_fit_transform X;
     if bool_decide (lower (str_value linkage)
                     ∈ ["ward"; "complete"; "maximum"; "average"]) then
       if bool_decide (lower (str_value affinity)
                       ∈ ["l1"; "l2"; "manhattan"; "cosine"; "euclidean"]) then
         '(prediction, agg) ←
           AgglomerativeClustering_fit_predict
             (MkAgglomerativeParams k (lower (str_value affinity)) true
                (lower (str_value linkage))) X';
         Ok (VTuple (VArray prediction) (VObject agg))
       else Raise ValueError
     else Raise ValueError).
Proof.
  unfold cluster_hierarchical_sklearn.
  destruct (StandardScaler_fit_transform X) as [X'|]; simpl; [|done].
  unfold str_in. rewrite !str_lower_value.
  destruct (bool_decide (lower (str_value linkage) ∈ _)); simpl; [|done].
  rewrite str_lower_is_constant by done.
  destruct (bool_decide (lower (str_value affinity) ∈ _)); simpl; [|done].
  rewrite str_lower_is_constant by done.
  by rewrite !str_lower_value.
Qed.

(** [cluster_hierarchical_scipy] on a numpy array, with the identity
    tests resolved and the lists of [GLOBAL] looked up. *)
Lemma cluster_hierarchical_scipy_checked X k (metric method : pystr) :
  cluster_hierarchical_scipy (PyArray X) k metric method
  = (X' ← StandardScaler_fit_transform X;
     if bool_decide (lower (str_value method)
                     ∈ ["ward"; "single"; "complete"; "average"; "weighted";
                        "centroid"; "median"]) then
       if bool_decide (lower (str_value metric)
                       ∈ ["euclidean"; "cityblock"; "minkowski"; "sqeuclidean";
                          "seuclidean"; "cosine"]) then
         linkage_matrix ←
           sch_linkage X' (lower (str_value method)) (lower (str_value metric));
         prediction ← sch_fcluster linkage_matrix k "maxclust";
         Ok (VTuple (VArray prediction) (VObject linkage_matrix))
       else Raise ValueError
     else Raise ValueError).
Proof.
  unfold cluster_hierarchical_scipy.
  destruct (StandardScaler_fit_transform X) as [X'|]; simpl; [|done].
  change (GLOBAL !!! "scipy_hcluster_valid_methods")
    with ["ward"; "single"; "complete"; "average"; "weighted"; "centroid"; "median"].
  change (GLOBAL !!! "scipy_hcluster_valid_metrics")
    with ["euclidean"; "cityblock"; "minkowski"; "sqeuclidean"; "seuclidean"; "cosine"].
  unfold str_in. rewrite !str_lower_value.
  destruct (bool_decide (lower (str_value method) ∈ _)); simpl; [|done].
  rewrite str_lower_is_constant by done.
  destruct (bool_decide (lower (str_value metric) ∈ _)); simpl; [|done].
  rewrite str_lower_is_constant by done.
  by rewrite !str_lower_value.
Qed.

(** X9.  What [cluster_hierarchical_sklearn] does on a numpy array: it
    standardises the matrix first (an error there is the error of the
    call), then accepts the linkage and the affinity by their lower-cased
    value, raising [ValueError] for a linkage outside ward, complete,
    maximum, average and for an affinity outside l1, l2, manhattan,
    cosine, euclidean; the estimator is built with exactly the
    lower-cased linkage and affinity that were requested. *)
Theorem cluster_hierarchical_sklearn_parameters X k (affinity linkage : pystr) :
  cluster_hierarchical_sklearn (PyArray X) k affinity linkage
  = (X' ← StandardScaler_fit_transform X;
     if bool_decide (lower (str_value linkage)
                     ∈ ["ward"; "complete"; "maximum"; "average"]) then
       if bool_decide (lower (str_value affinity)
                       ∈ ["l1"; "l2"; "manhattan"; "cosine"; "euclidean"]) then
         '(prediction, agg) ←
           AgglomerativeClustering_fit_predict
             (MkAgglomerativeParams k (lower (str_value affinity)) true
                (lower (str_value linkage))) X';
         Ok (VTuple (VArray prediction) (VObject agg))
       else Raise ValueError
     else Raise ValueError).
Proof. apply cluster_hierarchical_sklearn_checked. Qed.

(** X10.  The same for [cluster_hierarchical_scipy], with the methods
    and metrics of [GLOBAL]: "maximum" is not among the methods, and the
    linkage is computed with exactly the lower-cased method and metric
    that were requested, then cut by [fcluster] with criterion
    "maxclust" at [k]. *)
Theorem cluster_hierarchical_scipy_parameters X k (metric method : pystr) :
  cluster_hierarchical_scipy (PyArray X) k metric method
  = (X' ← StandardScaler_fit_transform X;
     if bool_decide (lower (str_value method)
                     ∈ ["ward"; "single"; "complete"; "average"; "weighted";
                        "centroid"; "median"]) then
       if bool_decide (lower (str_value metric)
                       ∈ ["euclidean"; "cityblock"; "minkowski"; "sqeuclidean";
                          "seuclidean"; "cosine"]) then
         linkage_matrix ←
           sch_linkage X' (lower (str_value method)) (lower (str_value metric));
         prediction ← sch_fcluster linkage_matrix k "maxclust";
         Ok (VTuple (VArray prediction) (VObject linkage_matrix))
       else Raise ValueError
     else Raise ValueError).
Proof. apply cluster_hierarchical_scipy_checked. Qed.

(** X11.  The two agglomerative strategies read their string
    parameters case-insensitively and by value: spellings with the same
    lower-case form give the same result, on any argument. *)
Theorem cluster_hierarchical_case_insensitive x k (a a' l l' : pystr) :
  lower (str_value a) = lower (str_value a') →
  lower (str_value l) = lower (str_value l') →
  cluster_hierarchical_sklearn x k a l = cluster_hierarchical_sklearn x k a' l' ∧
  cluster_hierarchical_scipy x k a l = cluster_hierarchical_scipy x k a' l'.
Proof.
  intros Ha Hl. destruct x as [|X|]; [done| |done].
  rewrite !cluster_hierarchical_sklearn_checked,
          !cluster_hierarchical_scipy_checked.
  by rewrite Ha, Hl.
Qed.
End clustering_more.

Lemma cluster_kmeans_domain_witness :
  cluster_kmeans (PyArray (NdArray [2; 1] [5; 6]%Z)) 1 (1 # 10000)%Q 1
  = Raise ValueError.
Proof. by apply cluster_kmeans_domain. Defined.

Lemma cluster_hierarchical_case_insensitive_witness :
  cluster_hierarchical_sklearn (PyArray (NdArray [2; 1] [5; 6]%Z)) 2
    (StrConst "Cosine") (StrConst "AVERAGE")
  = cluster_hierarchical_sklearn (PyArray (NdArray [2; 1] [5; 6]%Z)) 2
      (StrNew "cosine") (StrConst "average") ∧
  cluster_hierarchical_scipy (PyArray (NdArray [2; 1] [5; 6]%Z)) 2
    (StrConst "Cosine") (StrConst "AVERAGE")
  = cluster_hierarchical_scipy (PyArray (NdArray [2; 1] [5; 6]%Z)) 2
      (StrNew "cosine") (StrConst "average").
Proof. by apply cluster_hierarchical_case_insensitive. Defined.

(** ** Subject work unit: loading, status codes and what is written *)

Section flow_loops.
Context {T X S R : Type}.
Implicit Types (body : X → S → St T (flow S R)).

(** A loop whose passes leave the state alone leaves the state alone. *)
Lemma for_each_flow_state xs body st s :
  (∀ x st s, (body x st s).2 = s) → (for_each_flow xs body st s).2 = s.
Proof.
  intros Hbody. revert st. induction xs as [|x xs IH]; intros st; simpl; [done|].
  unfold mbind, St_bind. specialize (Hbody x st s).
  destruct (body x st s) as [[[st'|r]|e] s1]; simpl in *; subst; [apply IH|done..].
Qed.

(** A value returned from inside a loop was returned by one pass. *)
Lemma for_each_flow_return (P : R → Prop) xs body st s r :
  (∀ x st s r, (body x st s).1 = Ok (Return r) → P r) →
  (for_each_flow xs body st s).1 = Ok (Return r) → P r.
Proof.
  intros Hbody. revert st s. induction xs as [|x xs IH]; intros st s; simpl; [done|].
  unfold mbind, St_bind. specialize (Hbody x st s).
  destruct (body x st s) as [[[st'|r']|e] s1]; simpl in *; [apply IH| |done].
  intros [= <-]. by apply Hbody.
Qed.

(** A property of the loop state that every pass keeps holds at the
    end. *)
Lemma for_each_flow_inv (I : S → Prop) xs body st s st' :
  I st →
  (∀ x st s st', x ∈ xs → I st → (body x st s).1 = Ok (Next st') → I st') →
  (for_each_flow xs body st s).1 = Ok (Next st') → I st'.
Proof.
  revert st s. induction xs as [|x xs IH]; intros st s Hst Hbody; simpl.
  { by intros [= <-]. }
  unfold mbind, St_bind.
  pose proof (Hbody x st s) as Hx.
  destruct (body x st s) as [[[st1|r']|e] s1]; simpl in *; [|done..].
  apply IH.
  - apply Hx; [left | done..].
  - intros y t u t' Hy. apply Hbody. by right.
Qed.
Lemma for_each_flow_app xs ys body st s :
  for_each_flow (xs ++ ys) body st s
  = match for_each_flow xs body st s with
    | (Ok (Next st'), s') => for_each_flow ys body st' s'
    | other => other
    end.
Proof.
  revert st s. induction xs as [|x xs IH]; intros st s; simpl; [done|].
  unfold mbind, St_bind.
  destruct (body x st s) as [[[st'|r]|e] s1]; [apply IH|done..].
Qed.
End flow_loops.

Section work_unit_more.
Context {A FD : Type} `{!Numpy, !RtTypes A, !Sklearn A, !FeatureDefs FD}.
Implicit Types (d : DOI A) (s : state A) (defs : list FD).

(** Loading a subject reads the state and never changes it. *)
Lemma load_doi_state defs recluster d st s :
  (load_doi defs recluster d st s).2 = s.
Proof.
  unfold load_doi, mbind at 1, St_bind at 1, os_path_exists.
  destruct (_ && _); [done|].
  unfold mbind at 1, St_bind at 1, lift_result.
  destruct (getImageVolume d) as [iv|]; [|done].
  unfold mbind at 1, St_bind at 1.
  destruct (getROI d) as [roi|]; [|done].
  destruct iv as [iv|], roi as [roi|]; try done.
  unfold mbind at 1, St_bind at 1.
  match goal with
  | |- context [for_each_flow defs ?body ?st0 s] =>
      pose proof (for_each_flow_state defs body st0 s) as Hloop;
      destruct (for_each_flow defs body st0 s) as [[[fvl|r]|e] s1]
  end; simpl in *.
  1-3: rewrite Hloop; [done|].
  1-3: intros fd fvl' s'; unfold mbind, St_bind, get_state, fromPickle.
  1-3: destruct (findFiles _ _ _) as [|first ?]; [done|].
  1-3: by destruct (st_files s' !! first) as [[]|].
Qed.

(** What a pass of the loading loop can return early: 10 for an
    existing output that is kept, 1 for missing data. *)
Lemma load_doi_return defs recluster d st s r :
  (load_doi defs recluster d st s).1 = Ok (Return r) →
  (r = 10%Z ∧ recluster = false ∧ clustered d s) ∨ r = 1%Z.
Proof.
  unfold load_doi, mbind at 1, St_bind at 1, os_path_exists. fold (clustered d s).
  destruct (bool_decide (clustered d s) && negb recluster) eqn:Hskip.
  { intros [= <-]. left. apply andb_true_iff in Hskip as [Hc Hre].
    apply bool_decide_eq_true in Hc. apply negb_true_iff in Hre. done. }
  unfold mbind at 1, St_bind at 1, lift_result.
  destruct (getImageVolume d) as [iv|]; [|done].
  unfold mbind at 1, St_bind at 1.
  destruct (getROI d) as [roi|]; [|done].
  destruct iv as [iv|], roi as [roi|]; try (intros [= <-]; by right).
  unfold mbind at 1, St_bind at 1.
  match goal with
  | |- context [for_each_flow defs ?body ?st0 s] =>
      pose proof (for_each_flow_return (λ r, r = 1%Z) defs body st0 s) as Hloop;
      destruct (for_each_flow defs body st0 s) as [[[fvl|r']|e] s1]
  end; simpl in *; try done.
  intros [= <-]; right; apply Hloop; [|done].
  intros fd fvl' s' r''; unfold mbind, St_bind, get_state, fromPickle.
  destruct (findFiles _ _ _) as [|first ?]; [by intros [= <-]|].
  by destruct (st_files s' !! first) as [[]|].
Qed.


(** The outcomes of [DOICluster], on one subject or a list. *)
Lemma DOICluster_outcome (doi_list : doi_arg A) defs k recluster s c :
  (DOICluster doi_list defs k recluster s).1 = Ok c →
  (c = 10%Z ∧ recluster = false ∧ (DOICluster doi_list defs k recluster s).2 = s) ∨
  (c = 1%Z ∧ (DOICluster doi_list defs k recluster s).2 = s) ∨
  c = 0%Z ∨ c = 11%Z.
Proof.
  destruct (DOICluster doi_list defs k recluster s) as [res s'] eqn:Hrun.
  simpl. intros ->.
  unfold DOICluster in Hrun. fold (subjects doi_list) in Hrun.
  unfold mbind at 1, St_bind at 1 in Hrun.
  pose proof (for_each_flow_state (subjects doi_list) (load_doi defs recluster)
                ([], None) s (load_doi_state defs recluster)) as Hstate.
  pose proof (for_each_flow_return
                (λ r, (r = 10%Z ∧ recluster = false) ∨ r = 1%Z)
                (subjects doi_list) (load_doi defs recluster) ([], None) s) as Hret.
  destruct (for_each_flow (subjects doi_list) (load_doi defs recluster) ([], None) s)
    as [[[[fvl [loc|]]|r]|e] s1]; simpl in *; subst s1; try done.
  - unfold mbind at 1, St_bind at 1 in Hrun.
    destruct (cluster_features fvl (l_roi loc) k s) as [[[[cv ff] lbl]|] s2]; [|done].
    cbv beta iota in Hrun. unfold mbind at 1, St_bind at 1 in Hrun.
    destruct (os_makedirs _ s2) as [[[]|] s3]; [|done].
    unfold mbind at 1, St_bind at 1 in Hrun.
    destruct (write_pickle _ _ s3) as [[[]|] s4]; [|done].
    unfold mbind at 1, St_bind at 1 in Hrun.
    destruct (write_pickle _ _ s4) as [[[]|] s5]; [|done].
    destruct (l_reclustered loc); injection Hrun as <- <-; auto.
  - injection Hrun as <- <-.
    assert (∀ x st s r, (load_doi defs recluster x st s).1 = Ok (Return r) →
                        (r = 10%Z ∧ recluster = false) ∨ r = 1%Z) as Hbody.
    { intros x st s' r' Hx. apply load_doi_return in Hx. tauto. }
    destruct (Hret r Hbody eq_refl) as [[Hc Hr] | Hc]; subst; auto.
Qed.
End work_unit_more.


Section work_unit_claims_more.
Context {A FD : Type} `{!Numpy, !RtTypes A, !Sklearn A, !FeatureDefs FD}.
Implicit Types (d : DOI A) (s : state A) (defs : list FD).

(** A pass that goes on has recorded its subject, the subject's paths
    and the subject's region. *)
Lemma load_doi_next defs recluster d st s st' :
  (load_doi defs recluster d st s).1 = Ok (Next st') →
  ∃ loc, st'.2 = Some loc ∧ l_doi loc = d ∧
         l_p_clusters_l1_pickle loc = getClusterL1PicklePath d ∧
         l_p_doi_clusters loc = os_path_join (p_CLUSTERS d) (doi d) ∧
         getROI d = Ok (Some (l_roi loc)).
Proof.
  unfold load_doi, mbind at 1, St_bind at 1, os_path_exists.
  destruct (_ && _); [done|].
  unfold mbind at 1, St_bind at 1, lift_result.
  destruct (getImageVolume d) as [iv|]; [|done].
  unfold mbind at 1, St_bind at 1.
  destruct (getROI d) as [roi|]; [|done].
  destruct iv as [iv|], roi as [roi|]; try done.
  unfold mbind at 1, St_bind at 1.
  destruct (for_each_flow defs _ _ s) as [[[fvl|r]|e] s1]; try done.
  intros [= <-]. by eexists.
Qed.


(** X12.  [DOICluster], on one subject or a list, returns no other code
    than 0, 1, 10 and 11; it returns 10 only when [recluster] is false;
    and when it returns 1 or 10 it has written nothing: the store and
    the file system are as they were. *)
Theorem DOICluster_codes (doi_list : doi_arg A) defs k recluster s :
  match (DOICluster doi_list defs k recluster s).1 with
  | Ok c =>
      c ∈ [0; 1; 10; 11]%Z ∧
      (c = 10%Z → recluster = false) ∧
      (c = 10%Z ∨ c = 1%Z → (DOICluster doi_list defs k recluster s).2 = s)
  | Raise _ => True
  end.
Proof.
  destruct ((DOICluster doi_list defs k recluster s).1) as [c|] eqn:Hrun; [|done].
  destruct (DOICluster_outcome doi_list defs k recluster s c Hrun)
    as [(-> & Hre & Hs)|[(-> & Hs)|[->| ->]]].
  - split; [set_solver|]. split; [done|]. done.
  - split; [set_solver|]. split; [done|]. done.
  - split; [set_solver|]. split; [done|]. by intros [|].
  - split; [set_solver|]. split; [done|]. by intros [|].
Qed.

(** X13.  Missing image or region: for one subject that is not skipped,
    when the image volume or the region of interest is [None]
    [DOICluster] returns 1 and changes nothing. *)
Theorem DOICluster_missing_image_or_roi d defs k recluster s image_vol roi :
  (clustered d s → recluster = true) →
  getImageVolume d = Ok image_vol →
  getROI d = Ok roi →
  image_vol = None ∨ roi = None →
  DOICluster (OneDOI d) defs k recluster s = (Ok 1%Z, s).
Proof.
  intros Hre Himg Hroi Hnone. unfold DOICluster. simpl.
  unfold mbind at 1, St_bind at 1. unfold mbind at 1, St_bind at 1.
  assert (load_doi defs recluster d ([], None) s = (Ok (Return 1%Z), s)) as ->; [|done].
  unfold load_doi, mbind at 1, St_bind at 1, os_path_exists. fold (clustered d s).
  assert (bool_decide (clustered d s) && negb recluster = false) as ->.
  { destruct (decide (clustered d s)) as [Hc|Hc].
    - rewrite (Hre Hc). apply andb_false_r.
    - by rewrite bool_decide_false. }
  rewrite Himg, Hroi. unfold mbind, St_bind, lift_result.
  by destruct Hnone as [-> | ->]; [|destruct image_vol].
Qed.

(** X14.  Missing feature file: for one subject that is not skipped and
    has its image and region, when the files of the first feature
    definitions are found and the next definition matches no file,
    [DOICluster] returns 1 and changes nothing, whatever definitions
    follow. *)
Theorem DOICluster_missing_feature d defs_found fd defs_after vs k recluster s
    image_vol roi :
  (clustered d s → recluster = true) →
  getImageVolume d = Ok (Some image_vol) →
  getROI d = Ok (Some roi) →
  Forall2 (feature_found d (modality image_vol) s) defs_found vs →
  findFiles (enforceGLCMQuantizationMode fd (modality image_vol)) (getFeaturesPath d)
    (dom (st_files s)) = [] →
  DOICluster (OneDOI d) (defs_found ++ fd :: defs_after) k recluster s = (Ok 1%Z, s).
Proof.
  intros Hre Himg Hroi Hfound Hnone. unfold DOICluster. simpl.
  unfold mbind at 1, St_bind at 1. unfold mbind at 1, St_bind at 1.
  assert (load_doi (defs_found ++ fd :: defs_after) recluster d ([], None) s
          = (Ok (Return 1%Z), s)) as ->; [|done].
  unfold load_doi, mbind at 1, St_bind at 1, os_path_exists. fold (clustered d s).
  assert (bool_decide (clustered d s) && negb recluster = false) as ->.
  { destruct (decide (clustered d s)) as [Hc|Hc].
    - rewrite (Hre Hc). apply andb_false_r.
    - by rewrite bool_decide_false. }
  rewrite Himg, Hroi. unfold mbind at 1, St_bind at 1, lift_result.
  unfold mbind at 1, St_bind at 1. unfold mbind at 1, St_bind at 1.
  rewrite for_each_flow_app.
  rewrite (load_features_found d (modality image_vol) s defs_found vs) by done.
  simpl. unfold mbind at 1, St_bind at 1. unfold mbind at 1, St_bind at 1, get_state.
  by rewrite Hnone.
Qed.
End work_unit_claims_more.

Lemma DOICluster_missing_image_or_roi_witness :
  DOICluster (OneDOI subject_without_roi) feature_defs 2 true loaded_state
  = (Ok 1%Z, loaded_state).
Proof.
  apply (DOICluster_missing_image_or_roi subject_without_roi feature_defs 2 true
           loaded_state (Some volume) None); auto.
Defined.

Lemma DOICluster_missing_feature_witness :
  DOICluster (OneDOI subject) (["glcm.pickle"] ++ "missing.pickle" :: ["glcm.pickle"]) 2
    false loaded_state
  = (Ok 1%Z, loaded_state).
Proof.
  apply (DOICluster_missing_feature subject ["glcm.pickle"] "missing.pickle"
           ["glcm.pickle"] [volume] 2 false loaded_state volume roi); try done.
  - intros [[x Hx]|Hx]; [by vm_compute in Hx | set_solver].
  - repeat constructor. exists "/features/glcm.pickle", []. split; [|done].
    simpl. change ("/features" +:+ "/" +:+ "glcm.pickle") with "/features/glcm.pickle".
    case_bool_decide as Hin; [done|].
    exfalso. apply Hin, elem_of_dom. by eexists.
Defined.

Section work_unit_frame.
Context {A FD : Type} `{!Numpy, !RtTypes A, !Sklearn A, !FeatureDefs FD}.
Implicit Types (d : DOI A) (s : state A) (defs : list FD).

(** X15.  Whatever its outcome, [DOICluster] leaves the store of frames
    as it was, removes no directory, and changes no file other than the
    two output pickles of the subjects it was given. *)
Theorem DOICluster_frame (doi_list : doi_arg A) defs k recluster s :
  let s' := (DOICluster doi_list defs k recluster s).2 in
  st_heap s' = st_heap s ∧
  st_dirs s ⊆ st_dirs s' ∧
  ∀ path,
    (∀ d, d ∈ subjects doi_list →
          path ≠ getClusterL1PicklePath d ∧ path ≠ getClusterL1FeaturesPicklePath d) →
    st_files s' !! path = st_files s !! path.
Proof.
  intros s'. subst s'.
  destruct (DOICluster doi_list defs k recluster s) as [res s'] eqn:Hrun. simpl.
  unfold DOICluster in Hrun. fold (subjects doi_list) in Hrun.
  unfold mbind at 1, St_bind at 1 in Hrun.
  pose proof (for_each_flow_state (subjects doi_list) (load_doi defs recluster)
                ([], None) s (load_doi_state defs recluster)) as Hstate.
  pose proof (for_each_flow_inv
                (λ st, ∀ loc, st.2 = Some loc →
                   l_doi loc ∈ subjects doi_list ∧
                   l_p_clusters_l1_pickle loc = getClusterL1PicklePath (l_doi loc))
                (subjects doi_list) (load_doi defs recluster) ([], None) s) as Hinv.
  assert (st_heap s = st_heap s ∧ st_dirs s ⊆ st_dirs s ∧
          ∀ path,
            (∀ d, d ∈ subjects doi_list →
                  path ≠ getClusterL1PicklePath d ∧
                  path ≠ getClusterL1FeaturesPicklePath d) →
            st_files s !! path = st_files s !! path) as Hsame by done.
  destruct (for_each_flow (subjects doi_list) (load_doi defs recluster) ([], None) s)
    as [[[[fvl [loc|]]|r]|e] s1]; simpl in *; subst s1;
    try (injection Hrun as Hres Hs'; subst res s'; exact Hsame).
  assert (l_doi loc ∈ subjects doi_list ∧
          l_p_clusters_l1_pickle loc = getClusterL1PicklePath (l_doi loc))
    as [Hin Hpath].
  { apply (Hinv (fvl, Some loc)); [done| |done|done].
    intros x st t st' Hx _ (loc' & Hst' & Hdoi & Hp & _)%load_doi_next loc'' Hloc''.
    rewrite Hst' in Hloc''. injection Hloc'' as <-. by rewrite Hdoi. }
  clear Hinv.
  unfold mbind at 1, St_bind at 1 in Hrun.
  pose proof (cluster_features_state fvl (l_roi loc) k s) as Hcf.
  destruct (cluster_features fvl (l_roi loc) k s) as [[[[cv ff] lbl]|] s2];
    simpl in Hcf; subst s2; [|injection Hrun as Hres Hs'; subst res s'; exact Hsame].
  cbv beta iota in Hrun. unfold mbind at 1, St_bind at 1, os_makedirs in Hrun.
  destruct (st_files s !! l_p_doi_clusters loc);
    [injection Hrun as Hres Hs'; subst res s'; exact Hsame|].
  unfold mbind at 1, St_bind at 1, write_pickle in Hrun.
  cbn [st_dirs st_files st_heap] in Hrun.
  destruct (bool_decide (l_p_clusters_l1_pickle loc ∈ _)).
  { injection Hrun as Hres Hs'; subst res s'. simpl. split; [done|]. split; [apply union_subseteq_r|done]. }
  unfold mbind at 1, St_bind at 1 in Hrun. cbn [st_dirs st_files st_heap] in Hrun.
  destruct (bool_decide (getClusterL1FeaturesPicklePath (l_doi loc) ∈ _)).
  { injection Hrun as Hres Hs'; subst res s'. simpl. split; [done|]. split; [apply union_subseteq_r|].
    intros path Hp. destruct (Hp _ Hin) as [Hp1 _].
    rewrite lookup_insert_ne; [done|]. by rewrite Hpath. }
  assert (s' = MkState (st_heap s)
            (<[getClusterL1FeaturesPicklePath (l_doi loc) := PickledFeatures ff lbl]>
               (<[l_p_clusters_l1_pickle loc := PickledClusters cv]> (st_files s)))
            ({[l_p_doi_clusters loc]} ∪ st_dirs s)) as ->.
  { by destruct (l_reclustered loc); injection Hrun as Hres Hs'; subst res s'. }
  simpl. split; [done|]. split; [apply union_subseteq_r|].
  intros path Hp. destruct (Hp _ Hin) as [Hp1 Hp2].
  rewrite !lookup_insert_ne; [done| |done]. by rewrite Hpath.
Qed.


End work_unit_frame.


(** ** Batch worker and log line *)

Section worker_more.
Context {A FD : Type} `{!Numpy, !RtTypes A, !Sklearn A, !FeatureDefs FD}.
Context (strftime_gmtime : Q → string) (str_doi : DOI A → string).

(** X17.  The worker on the real work unit and an argument triple
    reports one of 0 "success", 1 "missing data", 11 "recalc" and
    2 "exception": it calls [DOICluster] with [recluster] true, so
    "skipped" is never reported, and [DOICluster] has no other code, so
    "unknown" never is. *)
Theorem worker_DOICluster_codes (subject : doi_arg A) (defs : list FD) (k : Z)
    (time_start time_end : Q) (s : state A) :
  ∃ result_code result_string,
    (worker_DOICluster strftime_gmtime DOICluster (Args3 subject defs k [])
       time_start time_end s).1
    = Ok (result_code, result_string,
          strftime_gmtime (time_end - time_start)%Q, subject) ∧
    (result_code, result_string)
      ∈ [(0%Z, "success"); (1%Z, "missing data"); (11%Z, "recalc"); (2%Z, "exception")].
Proof.
  unfold worker_DOICluster. simpl.
  pose proof (DOICluster_outcome subject defs k true s) as Hcodes.
  destruct (DOICluster subject defs k true s) as [[c|e] s']; simpl in *.
  - destruct (Hcodes c eq_refl) as [(_ & [=] & _)|[(-> & _)|[->| ->]]]; simpl;
      eexists _, _; (split; [done|]); set_solver.
  - eexists _, _. split; [done|]. set_solver.
Qed.

End worker_more.


(** ** Voxels outside the region *)

Section outside.
Context {A : Type} `{!Numpy}.

(** Whatever the vector and its shape: when the expansion returns, every
    voxel where the mask is not 1 holds the fill value. *)
Lemma expand_fill_outside_mask (h : heap) (pruned : ndarray A) (m : ROI)
    (frame : addr) (fill : A) (expanded : Volume (item A)) :
  let f := h !!! frame in
  on_grid (makeDenseMask m f) f →
  expand_pruned_vector h pruned (Some m) frame fill = Ok expanded →
  ∀ d r c b, d < size_z f → r < size_y f → c < size_x f →
    getitem3 (makeDenseMask m f) d r c = Ok b → b ≠ 1%Z →
    getitem3 (array expanded) d r c = Ok (Entry fill).
Proof.
  intros f Hmask. rewrite expand_pruned_vector_unfold by done. fold f.
  destruct Hmask as [Hms Hml].
  destruct (shape0 pruned); simpl; [|done].
  destruct (for_range _ _ _) as [[ev idx]|] eqn:Hrun; simpl; [|done].
  apply expand_loop_inv in Hrun as (Hlen & _ & _ & Hfill); [|done].
  destruct (np_array_items ev) as [arr|] eqn:Harr; simpl; [|done].
  destruct (_ =? _); [|done].
  intros [= <-] d r c b Hd Hr Hc Hb Hb1. simpl.
  rewrite (getitem3_flat _ _ _ _ _ _ _ Hms) in Hb by done.
  pose proof (flat_index_lt _ _ _ _ _ _ Hd Hr Hc) as Hlt.
  rewrite (getitem3_flat (NdArray _ (data arr)) (size_z f) (size_y f) (size_x f))
    by done.
  unfold getflat in *. simpl.
  destruct (data (makeDenseMask m f) !! _) as [b'|] eqn:Hb'; [|done].
  injection Hb as ->.
  assert (ev !! ((d * size_y f + r) * size_x f + c) = Some (Entry fill)) as Hev.
  { apply (Hfill _ b); [lia | done..]. }
  by rewrite (np_array_items_data ev arr _ fill Harr Hev).
Qed.

(** X19.  Whatever vector is expanded, when [expand_pruned_vector]
    returns on a mask laid out on the frame's grid, every voxel where
    the mask is not 1 holds the fill value. *)
Theorem expand_pruned_vector_fill (h : heap) (pruned : ndarray A) (m : ROI)
    (frame : addr) (fill : A) (expanded : Volume (item A)) :
  let f := h !!! frame in
  on_grid (makeDenseMask m f) f →
  expand_pruned_vector h pruned (Some m) frame fill = Ok expanded →
  ∀ d r c b, d < size_z f → r < size_y f → c < size_x f →
    getitem3 (makeDenseMask m f) d r c = Ok b → b ≠ 1%Z →
    getitem3 (array expanded) d r c = Ok (Entry fill).
Proof. apply expand_fill_outside_mask. Qed.
End outside.

Lemma expand_pruned_vector_fill_witness :
  getitem3
    (NdArray [1; 1; 2] [Entry (-1)%Z; Entry 5%Z]) 0 0 0 = Ok (Entry (-1)%Z).
Proof.
  apply (expand_pruned_vector_fill store (np_array [5; 6]%Z) roi 0 (-1)%Z
           (MkVolume (NdArray [1; 1; 2] [Entry (-1)%Z; Entry 5%Z]) 0 "")
           ltac:(by split) ltac:(reflexivity) 0 0 0 0%Z); vm_compute; (lia || done).
Defined.

Section work_unit_outside.
Context {A FD : Type} `{!Numpy, !RtTypes A, !Sklearn A, !FeatureDefs FD}.
Implicit Types (d : DOI A) (s : state A) (defs : list FD).

(** The dense cluster volume is the expansion, with fill value -1, of a
    label vector on the frame of the region. *)
Lemma cluster_features_expand (fvl : list (option (Volume A))) roi k s
    clusters features labels :
  (cluster_features fvl roi k s).1 = Ok (clusters, features, labels) →
  ∃ label_vector,
    expand_pruned_vector (st_heap s) label_vector (Some roi) (roi_frameofreference roi)
      (-1)%Z = Ok clusters.
Proof.
  destruct s as [h files dirs].
  unfold cluster_features, mbind at 1, St_bind at 1, on_heap.
  cbn [st_heap st_files st_dirs].
  pose proof (create_feature_matrix_roi_store fvl roi false h) as Hsame.
  pose proof (λ out, create_feature_matrix_frame fvl (Some roi) false h out
                       (roi_frameofreference roi) h eq_refl) as Hframe.
  destruct (create_feature_matrix fvl (Some roi) false h) as [r h'].
  simpl in Hsame, Hframe. subst h'.
  destruct r as [[[[[pruned frame] full] lbl]|]|]; [|done..].
  specialize (Hframe _ eq_refl). simpl in Hframe. subst frame.
  cbv beta iota. unfold mbind at 1, St_bind at 1, lift_result.
  match goal with
  | |- context [cluster_kmeans ?x ?n ?e ?j] =>
      destruct (cluster_kmeans x n e j) as [[|lab|?|??]|]; try done
  end.
  unfold mbind at 1, St_bind at 1, get_state. cbv beta iota.
  unfold mbind at 1, St_bind at 1. cbn [st_heap].
  destruct (expand_pruned_vector h lab (Some roi) (roi_frameofreference roi) (-1)%Z)
    as [w|] eqn:Hw; [|done].
  intros [= <- _ _]. by exists lab.
Qed.

(** X20.  When [DOICluster] on one subject returns 0 or 11, the cluster
    volume it has left at the subject's output path lies on the frame of
    the subject's region and, the mask lying on that frame's grid, holds
    -1 at every voxel where the mask is not 1. *)
Theorem DOICluster_outside_region d defs k recluster s c :
  (DOICluster (OneDOI d) defs k recluster s).1 = Ok c →
  c = 0%Z ∨ c = 11%Z →
  getClusterL1FeaturesPicklePath d ≠ getClusterL1PicklePath d →
  ∃ roi clusters,
    getROI d = Ok (Some roi) ∧
    st_files (DOICluster (OneDOI d) defs k recluster s).2 !! getClusterL1PicklePath d
    = Some (PickledClusters clusters) ∧
    let f := st_heap s !!! roi_frameofreference roi in
    on_grid (makeDenseMask roi f) f →
    ∀ z y x b, z < size_z f → y < size_y f → x < size_x f →
      getitem3 (makeDenseMask roi f) z y x = Ok b → b ≠ 1%Z →
      getitem3 (array clusters) z y x = Ok (Entry (-1)%Z).
Proof.
  destruct (DOICluster (OneDOI d) defs k recluster s) as [res s'] eqn:Hrun.
  simpl. intros -> Hc Hpaths.
  unfold DOICluster in Hrun. simpl in Hrun.
  unfold mbind at 1, St_bind at 1 in Hrun. unfold mbind at 1, St_bind at 1 in Hrun.
  pose proof (load_doi_state defs recluster d ([], None) s) as Hstate.
  pose proof (load_doi_next defs recluster d ([], None) s) as Hnext.
  pose proof (load_doi_return defs recluster d ([], None) s) as Hret.
  destruct (load_doi defs recluster d ([], None) s) as [[[[fvl loc]|r]|e] s1];
    simpl in *; subst s1; [| |done].
  2:{ injection Hrun as Hres _. subst r.
      destruct (Hret c eq_refl) as [[-> _]| ->]; by destruct Hc. }
  destruct (Hnext _ eq_refl) as (loc' & Hloc & Hdoi & Hp & Hdir & Hroi).
  simpl in Hloc. subst loc. cbv beta iota in Hrun.
  unfold mbind at 1, St_bind at 1 in Hrun.
  pose proof (cluster_features_state fvl (l_roi loc') k s) as Hcf.
  pose proof (cluster_features_expand fvl (l_roi loc') k s) as Hexp.
  destruct (cluster_features fvl (l_roi loc') k s) as [[[[cv ff] lbl]|] s2];
    simpl in Hcf; subst s2; [|done].
  destruct (Hexp cv ff lbl eq_refl) as [lab Hlab]. clear Hexp.
  cbv beta iota in Hrun. unfold mbind at 1, St_bind at 1, os_makedirs in Hrun.
  destruct (st_files s !! l_p_doi_clusters loc'); [done|].
  unfold mbind at 1, St_bind at 1, write_pickle in Hrun.
  cbn [st_dirs st_files st_heap] in Hrun.
  destruct (bool_decide (l_p_clusters_l1_pickle loc' ∈ _)); [done|].
  unfold mbind at 1, St_bind at 1 in Hrun. cbn [st_dirs st_files st_heap] in Hrun.
  destruct (bool_decide (getClusterL1FeaturesPicklePath (l_doi loc') ∈ _)); [done|].
  assert (s' = MkState (st_heap s)
            (<[getClusterL1FeaturesPicklePath (l_doi loc') := PickledFeatures ff lbl]>
               (<[l_p_clusters_l1_pickle loc' := PickledClusters cv]> (st_files s)))
            ({[l_p_doi_clusters loc']} ∪ st_dirs s)) as ->.
  { destruct (l_reclustered loc'); injection Hrun as _ Hs'; by subst s'. }
  exists (l_roi loc'), cv. split; [done|]. split.
  { simpl. rewrite Hdoi, Hp. rewrite lookup_insert_ne by done. apply lookup_insert_eq. }
  intros Hmask z y x b Hz Hy Hx Hb Hb1.
  by apply (expand_fill_outside_mask (st_heap s) lab (l_roi loc')
              (roi_frameofreference (l_roi loc')) (-1)%Z cv Hmask Hlab z y x b).
Qed.
End work_unit_outside.

Lemma DOICluster_outside_region_witness :
  ∃ clusters,
    st_files (DOICluster (OneDOI subject) feature_defs 2 false loaded_state).2
      !! getClusterL1PicklePath subject = Some (PickledClusters clusters) ∧
    getitem3 (array clusters) 0 0 0 = Ok (Entry (-1)%Z).
Proof.
  destruct (DOICluster_outside_region subject feature_defs 2 false loaded_state 0)
    as (r & clusters & Hr & Hfile & Hout); [by vm_compute | by left | done |].
  exists clusters. split; [done|].
  injection Hr as <-.
  apply (Hout ltac:(by split) 0 0 0 0%Z); vm_compute; (lia || done).
Defined.
